(** * Earthquake Explorer: a shallow embedding of [app.py]

    The program is a linear pipeline: build the query parameters, issue one
    HTTP GET, parse the GeoJSON answer into [Quake] records, sort them and
    print (or plot) them.  Every function of [app.py] is embedded below under
    its own name.  Python values the code handles dynamically (the decoded
    JSON document) are an inductive type; exceptions are an error monad;
    printing, the HTTP request and the chart are events of a trace. *)

From Stdlib Require Import ZArith Lia Bool List String Ascii.
From Stdlib Require Import Sorting.Permutation Sorting.Sorted.
From Stdlib Require Import Floats.SpecFloat.
From stdpp Require Import base option list strings pretty.

Local Open Scope Z_scope.

Set Warnings "-register-all".

(** ** Python [float]: IEEE 754 binary64 *)

Module Float.

(** A [float] is a binary64 number: a canonical [spec_float]
    ([valid_binary prec emax]), which is what every operation below
    returns. *)
Definition float : Type := spec_float.

Definition prec : Z := 53.
Definition emax : Z := 1024.

Definition zero : float := S754_zero false.
Definition nan : float := S754_nan.

Definition ltb (x y : float) : bool := SFltb x y.
Definition leb (x y : float) : bool := SFleb x y.
Definition eqb (x y : float) : bool := SFeqb x y.
(** [x >= y] is [y <= x]; both are false as soon as one side is NaN. *)
Definition geb (x y : float) : bool := SFleb y x.

Definition is_nan (x : float) : bool :=
  match x with S754_nan => true | _ => false end.

Definition is_zero (x : float) : bool :=
  match x with S754_zero _ => true | _ => false end.

(** Round-to-nearest-even of the integer [n]; an integer too large for a
    binary64 gives an infinity, which the callers turn into
    [OverflowError]. *)
Definition of_Z (n : Z) : float := binary_normalize prec emax n 0 false.

(** [a / b] on Python ints ([b <> 0]): the correctly rounded quotient. *)
Definition true_div (a b : Z) : float :=
  match a with
  | Z0 => S754_zero (b <? 0)
  | _ =>
      let '(q, e, l) := SFdiv_core_binary prec emax (Z.abs a) 0 (Z.abs b) 0 in
      binary_round_aux prec emax (xorb (a <? 0) (b <? 0)) q e l
  end.

Definition mul (x y : float) : float := SFmul prec emax x y.

(** Round half to even of the rational [n / d], for [0 < d]. *)
Definition round_half_even_div (n d : Z) : Z :=
  let q := n / d in
  let r := n mod d in
  match 2 * r ?= d with
  | Lt => q
  | Gt => q + 1
  | Eq => if Z.even q then q else q + 1
  end.

(** The exact value of a finite float as a signed mantissa. *)
Definition signed (s : bool) (m : positive) : Z :=
  if s then Z.neg m else Z.pos m.

(** C's [modf]: the integral part (as an integer) and the fractional part,
    both carrying the sign of [x].  Only called on finite floats. *)
Definition modf (x : float) : Z * float :=
  match x with
  | S754_finite s m e =>
      if 0 <=? e then (signed s m * 2 ^ e, S754_zero s)
      else
        let d := 2 ^ (- e) in
        let ip := Z.quot (signed s m) d in
        let r := Z.rem (signed s m) d in
        (ip, binary_normalize prec emax r e s)
  | _ => (0, x)
  end.

(** [int(x)] on a finite float: truncation toward zero. *)
Definition trunc (x : float) : Z := fst (modf x).

(** Round half to even of a finite float to an integer. *)
Definition round_half_even (x : float) : Z :=
  match x with
  | S754_finite s m e =>
      if 0 <=? e then signed s m * 2 ^ e
      else round_half_even_div (signed s m) (2 ^ (- e))
  | _ => 0
  end.

(** Round half to even of [x + f] for an integer [x] and a float [f]. *)
Definition round_half_even_add (x : Z) (f : float) : Z :=
  match f with
  | S754_finite s m e =>
      if 0 <=? e then x + signed s m * 2 ^ e
      else round_half_even_div (x * 2 ^ (- e) + signed s m) (2 ^ (- e))
  | _ => x
  end.

End Float.

Abbreviation float := Float.float.

(** ** Exceptions and the error monad *)

(** The exception classes the program can meet.  [RuntimeError] carries its
    message; the others are told apart by class only, which is all the
    [except] clause of [parse_geojson] looks at. *)
Inductive exn : Type :=
  | KeyError
  | TypeError
  | ValueError
  | IndexError
  | AttributeError
  | OverflowError
  | OSError
  | RuntimeError (msg : string).

(** A computation that returns a value or raises. *)
Inductive result (A : Type) : Type :=
  | Ok (a : A)
  | Raise (e : exn).
Arguments Ok {A} a.
Arguments Raise {A} e.

Definition bind {A B : Type} (m : result A) (k : A -> result B) : result B :=
  match m with
  | Ok a => k a
  | Raise e => Raise e
  end.

Declare Scope py_scope.
Delimit Scope py_scope with py.
Notation "'let*' x ':=' m 'in' k" := (bind m (fun x => k))
  (at level 10, x pattern, m at level 100, k at level 200) : py_scope.
Local Open Scope py_scope.

(** ** [datetime]: aware datetimes in UTC *)

Module Datetime.

(** The fields CPython stores; [tzinfo] is always [timezone.utc] in this
    program, so it is left out. *)
Record datetime : Type := mkDatetime {
  year : Z;
  month : Z;
  day : Z;
  hour : Z;
  minute : Z;
  second : Z;
  microsecond : Z
}.

(** *** The proleptic Gregorian calendar, as in CPython's [_pydatetime] *)

Definition is_leap (y : Z) : bool :=
  (y mod 4 =? 0) && (negb (y mod 100 =? 0) || (y mod 400 =? 0)).

Definition days_before_year (y : Z) : Z :=
  let y := y - 1 in y * 365 + y / 4 - y / 100 + y / 400.

Definition DAYS_IN_MONTH (m : Z) : Z :=
  match m with
  | 1 => 31 | 2 => 28 | 3 => 31 | 4 => 30 | 5 => 31 | 6 => 30
  | 7 => 31 | 8 => 31 | 9 => 30 | 10 => 31 | 11 => 30 | 12 => 31
  | _ => -1
  end.

Definition DAYS_BEFORE_MONTH (m : Z) : Z :=
  match m with
  | 1 => 0 | 2 => 31 | 3 => 59 | 4 => 90 | 5 => 120 | 6 => 151
  | 7 => 181 | 8 => 212 | 9 => 243 | 10 => 273 | 11 => 304 | 12 => 334
  | _ => -1
  end.

Definition days_in_month (y m : Z) : Z :=
  if (m =? 2) && is_leap y then 29 else DAYS_IN_MONTH m.

Definition days_before_month (y m : Z) : Z :=
  DAYS_BEFORE_MONTH m + (if (2 <? m) && is_leap y then 1 else 0).

(** Day 1 is 0001-01-01. *)
Definition ymd2ord (y m d : Z) : Z :=
  days_before_year y + days_before_month y m + d.

Definition DI400Y : Z := 146097.
Definition DI100Y : Z := 36524.
Definition DI4Y : Z := 1461.

Definition ord2ymd (n : Z) : Z * Z * Z :=
  let n := n - 1 in
  let n400 := n / DI400Y in
  let n := n mod DI400Y in
  let y := n400 * 400 + 1 in
  let n100 := n / DI100Y in
  let n := n mod DI100Y in
  let n4 := n / DI4Y in
  let n := n mod DI4Y in
  let n1 := n / 365 in
  let n := n mod 365 in
  let y := y + n100 * 100 + n4 * 4 + n1 in
  if (n1 =? 4) || (n100 =? 4) then (y - 1, 12, 31)
  else
    let leapyear := (n1 =? 3) && (negb (n4 =? 24) || (n100 =? 3)) in
    let m := Z.shiftr (n + 50) 5 in
    let preceding :=
      DAYS_BEFORE_MONTH m + (if (2 <? m) && leapyear then 1 else 0) in
    if n <? preceding then
      let m := m - 1 in
      let preceding :=
        preceding - (DAYS_IN_MONTH m + (if (m =? 2) && leapyear then 1 else 0)) in
      (y, m, n - preceding + 1)
    else (y, m, n - preceding + 1).

(** *** Microseconds since 1970-01-01T00:00:00Z *)

Definition EPOCH_ORD : Z := 719163.
Definition US_PER_SECOND : Z := 1000000.
Definition US_PER_HOUR : Z := 3600000000.
Definition US_PER_DAY : Z := 86400000000.

Definition to_seconds (dt : datetime) : Z :=
  (((ymd2ord (year dt) (month dt) (day dt) - EPOCH_ORD) * 24 + hour dt) * 60
   + minute dt) * 60 + second dt.

Definition to_us (dt : datetime) : Z :=
  to_seconds dt * US_PER_SECOND + microsecond dt.

Definition of_us (u : Z) : datetime :=
  let days := u / US_PER_DAY in
  let r := u mod US_PER_DAY in
  let '(y, m, d) := ord2ymd (days + EPOCH_ORD) in
  let s := r / US_PER_SECOND in
  mkDatetime y m d (s / 3600) (s mod 3600 / 60) (s mod 60) (r mod US_PER_SECOND).

(** [datetime.min] and [datetime.max], in UTC. *)
Definition MIN_US : Z := to_us (mkDatetime 1 1 1 0 0 0 0).
Definition MAX_US : Z := to_us (mkDatetime 9999 12 31 23 59 59 999999).

Definition in_range (u : Z) : bool := (MIN_US <=? u) && (u <=? MAX_US).

(** The checks of the constructor. *)
Definition MINYEAR : Z := 1.
Definition MAXYEAR : Z := 9999.

Definition validb (dt : datetime) : bool :=
  (MINYEAR <=? year dt) && (year dt <=? MAXYEAR)
  && (1 <=? month dt) && (month dt <=? 12)
  && (1 <=? day dt) && (day dt <=? days_in_month (year dt) (month dt))
  && (0 <=? hour dt) && (hour dt <? 24)
  && (0 <=? minute dt) && (minute dt <? 60)
  && (0 <=? second dt) && (second dt <? 60)
  && (0 <=? microsecond dt) && (microsecond dt <? US_PER_SECOND).

Definition valid (dt : datetime) : Prop := validb dt = true.

(** *** Comparison: both sides share [tzinfo], so CPython compares the
    fields in order. *)

Definition fields (dt : datetime) : list Z :=
  [year dt; month dt; day dt; hour dt; minute dt; second dt; microsecond dt].

Fixpoint lex_compare (a b : list Z) : comparison :=
  match a, b with
  | [], [] => Eq
  | [], _ :: _ => Lt
  | _ :: _, [] => Gt
  | x :: a', y :: b' =>
      match x ?= y with
      | Eq => lex_compare a' b'
      | c => c
      end
  end.

Definition compare (a b : datetime) : comparison :=
  lex_compare (fields a) (fields b).

Definition ltb (a b : datetime) : bool :=
  match compare a b with Lt => true | _ => false end.

Definition geb (a b : datetime) : bool := negb (ltb a b).

(** *** [datetime.fromtimestamp(t, tz=timezone.utc)] for a float [t]

    CPython splits [t] with [modf], scales the fraction to microseconds in
    float arithmetic and rounds it half to even.  A NaN is a [ValueError];
    seconds outside [time_t] are an [OverflowError]; a year [gmtime] cannot
    hold in a C [int] is an [OSError]; a year outside 1..9999 is a
    [ValueError] (64-bit Linux).

    The range of [time_t] is tested on doubles, against [(double)TIME_T_MIN]
    and [(double)TIME_T_MAX]; the second is rounded up to [2 ^ 63], so that
    [2 ^ 63] seconds pass the test.  The conversion to [time_t] then gives
    [- 2 ^ 63] (x86-64), which [gmtime] refuses. *)

Definition TIME_T_MIN : Z := - 2 ^ 63.
Definition TIME_T_MAX : Z := 2 ^ 63 - 1.
Definition TIME_T_MAX_DOUBLE : Z := 2 ^ 63.
Definition INT_MIN : Z := - 2 ^ 31.
Definition INT_MAX : Z := 2 ^ 31 - 1.

Definition fromtimestamp (t : float) : result datetime :=
  match t with
  | S754_nan => Raise ValueError
  | S754_infinity _ => Raise OverflowError
  | _ =>
      let '(ip, fp) := Float.modf t in
      let us := Float.round_half_even (Float.mul fp (Float.of_Z US_PER_SECOND)) in
      let '(ip, us) :=
        if US_PER_SECOND <=? us then (ip + 1, us - US_PER_SECOND)
        else if us <? 0 then (ip - 1, us + US_PER_SECOND)
        else (ip, us) in
      if negb ((TIME_T_MIN <=? ip) && (ip <=? TIME_T_MAX_DOUBLE))
      then Raise OverflowError
      else
        let ip := if TIME_T_MAX <? ip then TIME_T_MIN else ip in
        let dt := of_us (ip * US_PER_SECOND + us) in
        let tm_year := year dt - 1900 in
        if negb ((INT_MIN <=? tm_year) && (tm_year <=? INT_MAX)) then Raise OSError
        else if negb ((MINYEAR <=? year dt) && (year dt <=? MAXYEAR)) then Raise ValueError
        else Ok dt
  end.

(** *** [timedelta(hours=h)] for a float [h], in microseconds

    CPython multiplies the integral part of [h] exactly, the fractional
    part in float arithmetic, and rounds the sum half to even. *)

Definition timedelta : Type := Z.

Definition MAX_DELTA_DAYS : Z := 999999999.

Definition timedelta_hours (h : float) : result timedelta :=
  match h with
  | S754_nan => Raise ValueError
  | S754_infinity _ => Raise OverflowError
  | _ =>
      let '(ip, fp) := Float.modf h in
      let x := ip * US_PER_HOUR in
      let us :=
        if Float.is_zero fp then x
        else
          let '(ip2, fp2) := Float.modf (Float.mul (Float.of_Z US_PER_HOUR) fp) in
          Float.round_half_even_add (x + ip2) fp2 in
      if Z.abs (us / US_PER_DAY) <=? MAX_DELTA_DAYS then Ok us
      else Raise OverflowError
  end.

(** [dt - delta]: [OverflowError] when the result leaves
    [datetime.min .. datetime.max]. *)
Definition sub (dt : datetime) (delta : timedelta) : result datetime :=
  let u := to_us dt - delta in
  if in_range u then Ok (of_us u) else Raise OverflowError.

(** *** Formatting *)

Definition digit (n : Z) : ascii := ascii_of_nat (48 + Z.to_nat n).

(** The last [w] decimal digits of [n]: C's [%0wd] for [0 <= n < 10 ^ w],
    which holds of every field it is applied to. *)
Fixpoint dec (w : nat) (n : Z) : string :=
  match w with
  | O => EmptyString
  | S w' => dec w' (n / 10) +:+ String (digit (n mod 10)) EmptyString
  end.

(** [dt.isoformat(timespec="seconds")] of the naive copy of [dt]:
    the microseconds are dropped, not rounded. *)
Definition isoformat_seconds (dt : datetime) : string :=
  dec 4 (year dt) +:+ "-" +:+ dec 2 (month dt) +:+ "-" +:+ dec 2 (day dt)
  +:+ "T" +:+ dec 2 (hour dt) +:+ ":" +:+ dec 2 (minute dt)
  +:+ ":" +:+ dec 2 (second dt).

(** [dt.strftime("%Y-%m-%d %H:%M UTC")]; glibc's [%Y] does not pad. *)
Definition strftime_row (dt : datetime) : string :=
  pretty (year dt) +:+ "-" +:+ dec 2 (month dt) +:+ "-" +:+ dec 2 (day dt)
  +:+ " " +:+ dec 2 (hour dt) +:+ ":" +:+ dec 2 (minute dt) +:+ " UTC".

End Datetime.

Abbreviation datetime := Datetime.datetime.

(** ** Decoded JSON values *)

(** What [resp.json()] returns: [None], [bool], [int], [float], [str],
    [list] and [dict] with [str] keys.  A dict is the list of its items,
    looked up by key. *)
Inductive json : Type :=
  | JNull
  | JBool (b : bool)
  | JInt (n : Z)
  | JFloat (x : float)
  | JStr (s : string)
  | JList (l : list json)
  | JDict (d : list (string * json)).

Abbreviation dict := (list (string * json)).

Fixpoint dict_lookup (d : dict) (k : string) : option json :=
  match d with
  | [] => None
  | (k', v) :: d' => if String.eqb k' k then Some v else dict_lookup d' k
  end.

(** [d.get(k)] on a dict. *)
Definition dict_get (d : dict) (k : string) : json :=
  default JNull (dict_lookup d k).

(** [v[k]] for a string key: a missing key is a [KeyError], and a value
    that is not a dict cannot be indexed by a string. *)
Definition getitem (v : json) (k : string) : result json :=
  match v with
  | JDict d =>
      match dict_lookup d k with
      | Some x => Ok x
      | None => Raise KeyError
      end
  | _ => Raise TypeError
  end.

(** [v.get(k)]: only a dict has the method. *)
Definition get (v : json) (k : string) : result json :=
  match v with
  | JDict d => Ok (dict_get d k)
  | _ => Raise AttributeError
  end.

(** [v[i]] for an index [i >= 0]: a list or string that is too short is an
    [IndexError]; a dict has no integer key. *)
Definition getindex (v : json) (i : nat) : result json :=
  match v with
  | JList l =>
      match l !! i with
      | Some x => Ok x
      | None => Raise IndexError
      end
  | JStr s =>
      match String.get i s with
      | Some c => Ok (JStr (String c EmptyString))
      | None => Raise IndexError
      end
  | JDict _ => Raise KeyError
  | _ => Raise TypeError
  end.

(** Truth value, as [or] tests it. *)
Definition truthy (v : json) : bool :=
  match v with
  | JNull => false
  | JBool b => b
  | JInt n => negb (n =? 0)
  | JFloat x => negb (Float.is_zero x)
  | JStr s => negb (String.eqb s EmptyString)
  | JList l => match l with [] => false | _ :: _ => true end
  | JDict d => match d with [] => false | _ :: _ => true end
  end.

(** [v or d] *)
Definition or_else (v d : json) : json := if truthy v then v else d.

Definition is_None (v : json) : bool :=
  match v with JNull => true | _ => false end.

(** ** Built-in conversions

    The conversions of text the interpreter provides are taken as given:
    parsing a string as a number, and printing a value that is not a string
    already. *)
Class Builtins : Type := {
  (** [float(s)] for a str; [None] is [ValueError] *)
  float_of_str : string -> option float;
  (** [int(s)] for a str; [None] is [ValueError] *)
  int_of_str : string -> option Z;
  (** [str(v)] for a value that is not a str *)
  str_of_value : json -> result string;
  (** [str(x)] for a float *)
  repr_float : float -> string;
  (** [format(x, "g")] *)
  format_g : float -> string
}.

Section Conversions.
Context {B : Builtins}.

(** [float(v)] *)
Definition to_float (v : json) : result float :=
  match v with
  | JFloat x => Ok x
  | JInt n =>
      match Float.of_Z n with
      | S754_infinity _ => Raise OverflowError
      | x => Ok x
      end
  | JBool b => Ok (Float.of_Z (if b then 1 else 0))
  | JStr s =>
      match float_of_str s with
      | Some x => Ok x
      | None => Raise ValueError
      end
  | _ => Raise TypeError
  end.

(** [int(v)] *)
Definition to_int (v : json) : result Z :=
  match v with
  | JInt n => Ok n
  | JBool b => Ok (if b then 1 else 0)
  | JFloat S754_nan => Raise ValueError
  | JFloat (S754_infinity _) => Raise OverflowError
  | JFloat x => Ok (Float.trunc x)
  | JStr s =>
      match int_of_str s with
      | Some n => Ok n
      | None => Raise ValueError
      end
  | _ => Raise TypeError
  end.

(** [str(v)] *)
Definition to_str (v : json) : result string :=
  match v with
  | JStr s => Ok s
  | _ => str_of_value v
  end.

End Conversions.

(** [n / d] on ints, [d <> 0] *)
Definition int_truediv (n d : Z) : result float :=
  match Float.true_div n d with
  | S754_infinity _ => Raise OverflowError
  | x => Ok x
  end.

(** ** The record *)

Record Quake : Type := mkQuake {
  magnitude : float;
  place : string;
  time_utc : datetime;
  url : string;
  lon : float;
  lat : float;
  depth_km : float
}.

(** ** [parse_geojson] *)

Section Parser.
Context {B : Builtins}.

(** The body of the [try]: [Ok None] is the [continue] of an incomplete
    entry, [Ok (Some q)] the record that is appended. *)
Definition feature_body (f : json) : result (option Quake) :=
  let* props := getitem f "properties" in
  let* geom := getitem f "geometry" in
  let* coords := getitem geom "coordinates" in
  let* mag := get props "mag" in
  let* place0 := get props "place" in
  let place := or_else place0 (JStr "(unknown location)") in
  let* t_ms := get props "time" in
  let* url0 := get props "url" in
  let url := or_else url0 (JStr "") in
  let* lon := getindex coords 0 in
  let* lat := getindex coords 1 in
  let* depth_km := getindex coords 2 in
  if is_None mag || is_None t_ms then Ok None
  else
    let* ms := to_int t_ms in
    let* secs := int_truediv ms 1000 in
    let* time_utc := Datetime.fromtimestamp secs in
    let* magnitude := to_float mag in
    let* place := to_str place in
    let* url := to_str url in
    let* lon := to_float lon in
    let* lat := to_float lat in
    let* depth_km := to_float depth_km in
    Ok (Some (mkQuake magnitude place time_utc url lon lat depth_km)).

(** [except (KeyError, TypeError, ValueError)] *)
Definition caught (e : exn) : bool :=
  match e with
  | KeyError | TypeError | ValueError => true
  | _ => false
  end.

(** One turn of the loop: a caught exception skips the feature, any other
    leaves the function. *)
Definition parse_feature (f : json) : result (option Quake) :=
  match feature_body f with
  | Raise e => if caught e then Ok None else Raise e
  | r => r
  end.

Fixpoint parse_features (features : list json) (quakes : list Quake)
  : result (list Quake) :=
  match features with
  | [] => Ok quakes
  | f :: rest =>
      let* r := parse_feature f in
      parse_features rest
        (match r with Some q => quakes ++ [q] | None => quakes end)
  end.

Definition parse_geojson (data : json) : result (list Quake) :=
  let* features := get data "features" in
  match features with
  | JList features => parse_features features []
  | _ => Raise (RuntimeError
                  "Unexpected response: 'features' missing or not a list.")
  end.

End Parser.

(** ** [sorted] and [sort_quakes] *)

(** Python's [sorted(l, key=..., reverse=...)] compares keys with [<] only
    and is stable; with [reverse=True] it sorts the reversed list and
    reverses the outcome, so that ties keep their input order.  The stable
    sort is an insertion sort here: on keys that [<] orders totally every
    stable sort returns the same list.  With a NaN among the keys [<] is no
    order, and CPython, which looks for runs and inserts by bisection, can
    return another list than the one below (of two records, one of them
    with a NaN, both return the list as it is); the properties of the
    order by magnitude are stated of lists without a NaN. *)
Section Sorted.
Context {A K : Type} (key : A -> K) (lt : K -> K -> bool).

(** [x] goes in front of the first element that is not below it. *)
Fixpoint insert (x : A) (l : list A) : list A :=
  match l with
  | [] => [x]
  | y :: l' => if lt (key y) (key x) then y :: insert x l' else x :: l
  end.

Definition sort_ascending (l : list A) : list A := foldr insert [] l.

Definition sorted (reverse : bool) (l : list A) : list A :=
  if reverse then rev (sort_ascending (rev l)) else sort_ascending l.

End Sorted.

Definition sort_quakes (quakes : list Quake) (order : string) : list Quake :=
  if String.eqb order "time" then sorted time_utc Datetime.ltb true quakes
  else sorted magnitude Float.ltb true quakes.

(** ** Presentation *)

(** [format(x, ".1f")]: the exact value rounded half to even at one
    decimal. *)
Definition format_1f (x : float) : string :=
  match x with
  | S754_nan => "nan"
  | S754_infinity s => if s then "-inf" else "inf"
  | S754_zero s => if s then "-0.0" else "0.0"
  | S754_finite s m e =>
      let tenths :=
        if 0 <=? e then Z.pos m * 10 * 2 ^ e
        else Float.round_half_even_div (Z.pos m * 10) (2 ^ (- e)) in
      (if s then "-" else "") +:+ pretty (tenths / 10) +:+ "."
      +:+ pretty (tenths mod 10)
  end.

Definition format_row (q : Quake) : string :=
  let t := Datetime.strftime_row (time_utc q) in
  "M" +:+ format_1f (magnitude q) +:+ " | " +:+ t +:+ " | depth "
  +:+ format_1f (depth_km q) +:+ " km | " +:+ place q.

(** [l[:n]] *)
Definition slice_to {A : Type} (l : list A) (n : Z) : list A :=
  if 0 <=? n then take (Z.to_nat n) l
  else take (length l - Z.to_nat (- n)) l.

(** [format(i, ">2")] *)
Definition rjust2 (s : string) : string :=
  if (String.length s <? 2)%nat then " " +:+ s else s.

Fixpoint string_repeat (c : ascii) (n : nat) : string :=
  match n with
  | O => EmptyString
  | S n' => String c (string_repeat c n')
  end.

(** The lines of the body of the listing, numbered from [i]. *)
Fixpoint print_rows (i : Z) (quakes : list Quake) : list string :=
  match quakes with
  | [] => []
  | q :: rest =>
      (rjust2 (pretty i) +:+ ". " +:+ format_row q)
      :: (if String.eqb (url q) EmptyString then []
          else ["    USGS page: " +:+ url q])
      ++ print_rows (i + 1) rest
  end.

(** [print_results]: the lines written to standard output. *)
Definition print_results (quakes : list Quake) (limit : Z) : list string :=
  match quakes with
  | [] => ["No earthquakes matched your filters."]
  | _ :: _ =>
      ("Found " +:+ pretty (Z.of_nat (length quakes))
       +:+ " earthquakes. Showing up to "
       +:+ pretty (Z.min limit (Z.of_nat (length quakes))) +:+ ":")
      :: string_repeat "-" 80
      :: print_rows 1 (slice_to quakes limit)
  end.

(** What the program does to the outside, in order. *)
Inductive chart_op : Type :=
  | UseAgg
  | Figure
  | Plot (times : list datetime) (mags : list float)
  | Xlabel (s : string)
  | Ylabel (s : string)
  | Title (s : string)
  | Xticks
  | TightLayout
  | Savefig (path : string) (dpi : Z)
  | Show
  | Close.

Inductive event : Type :=
  | Stdout (line : string)
  | Stderr (line : string)
  | HttpGet (endpoint : string) (params : list (string * string)) (timeout : Z)
  | Chart (op : chart_op).

(** [plot_quakes], with matplotlib installed: the calls it makes and the
    lines it writes, in order, when no call raises.  When a call raises
    (an unwritable path in [savefig], no display in [show]), what has been
    done is a prefix of this list.  [save_path] is [None] or a string; the
    empty string is falsy as well. *)
Definition plot_quakes (quakes : list Quake) (title : string)
    (save_path : option string) (show : bool) : list event :=
  match quakes with
  | [] => [Stdout "No data to plot."]
  | _ :: _ =>
      (if show then [] else [Chart UseAgg])
      ++ [Chart Figure;
          Chart (Plot (map time_utc quakes) (map magnitude quakes));
          Chart (Xlabel "Time (UTC)");
          Chart (Ylabel "Magnitude");
          Chart (Title title);
          Chart Xticks;
          Chart TightLayout]
      ++ match save_path with
         | Some path =>
             if String.eqb path EmptyString then []
             else [Chart (Savefig path 200); Stdout ("Saved plot to: " +:+ path)]
         | None => []
         end
      ++ [Chart (if show then Show else Close)]
  end.

(** ** The request *)

Definition USGS_QUERY_ENDPOINT : string :=
  "https://earthquake.usgs.gov/fdsnws/event/1/query".
Definition DEFAULT_TIMEOUT_SECONDS : Z := 20.

(** [dt] is already in UTC, so [astimezone(timezone.utc)] leaves it as it
    is. *)
Definition isoformat_utc (dt : datetime) : string :=
  Datetime.isoformat_seconds dt.

(** The query parameters, in the order the dict literal lists them. *)
Abbreviation params := (list (string * string)).

Fixpoint param (p : params) (k : string) : option string :=
  match p with
  | [] => None
  | (k', v) :: p' => if String.eqb k' k then Some v else param p' k
  end.

Definition build_params {B : Builtins} (start_utc end_utc : datetime)
    (min_mag : float) (limit : Z) : params :=
  [("format", "geojson");
   ("starttime", isoformat_utc start_utc);
   ("endtime", isoformat_utc end_utc);
   ("minmagnitude", repr_float min_mag);
   ("limit", pretty limit)].

(** What [requests.get] can do: fail with a [RequestException], or hand
    back a response.  [json_body] is [None] when [resp.json()] raises
    [ValueError]. *)
Record response : Type := mkResponse {
  status_code : Z;
  text : string;
  json_body : option json
}.

Inductive http_outcome : Type :=
  | RequestException (msg : string)
  | Response (resp : response).

(** [s[:n]] *)
Fixpoint str_take (n : nat) (s : string) : string :=
  match n, s with
  | S n', String c s' => String c (str_take n' s')
  | _, _ => EmptyString
  end.

(** ** Programs with effects: a trace of events and a result *)

Definition io (A : Type) : Type := list event * result A.

Definition io_ret {A : Type} (a : A) : io A := ([], Ok a).

Definition io_bind {A B : Type} (m : io A) (k : A -> io B) : io B :=
  match m with
  | (t, Ok a) => let '(t', r) := k a in (t ++ t', r)
  | (t, Raise e) => (t, Raise e)
  end.

Definition emit (es : list event) : io unit := (es, Ok tt).

Definition lift {A : Type} (r : result A) : io A := ([], r).

Notation "'do*' x ':=' m 'in' k" := (io_bind m (fun x => k))
  (at level 10, x pattern, m at level 100, k at level 200) : py_scope.

(** The parsed command line ([argparse] has done its work). *)
Record Args : Type := mkArgs {
  hours : float;
  min_mag : float;
  limit : Z;
  order : string;
  plot : bool;
  save_plot : option string;
  no_show : bool
}.

Section Program.
Context {B : Builtins}.
(** The world: the clock read by [datetime.now(timezone.utc)] and the
    server behind [requests.get]. *)
Variable now : datetime.
Variable requests_get : string -> params -> Z -> http_outcome.

Definition fetch_quakes (p : params) : io json :=
  do* _ := emit [HttpGet USGS_QUERY_ENDPOINT p DEFAULT_TIMEOUT_SECONDS] in
  match requests_get USGS_QUERY_ENDPOINT p DEFAULT_TIMEOUT_SECONDS with
  | RequestException e =>
      lift (Raise (RuntimeError
                     ("Network error while calling USGS API: " +:+ e)))
  | Response resp =>
      if negb (status_code resp =? 200) then
        lift (Raise (RuntimeError
                       ("USGS API returned HTTP " +:+ pretty (status_code resp)
                        +:+ ": " +:+ str_take 300 (text resp))))
      else
        match json_body resp with
        | Some data => io_ret data
        | None =>
            lift (Raise (RuntimeError "USGS API response was not valid JSON."))
        end
  end.

Definition wants_plot (args : Args) : bool :=
  plot args
  || match save_plot args with
     | Some path => negb (String.eqb path EmptyString)
     | None => false
     end.

(** [main]: the value returned is the exit status; [Raise] is an exception
    nobody catches.  The calls of [plot_quakes] into matplotlib are taken
    to return, as they are there. *)
Definition main (args : Args) : io Z :=
  if Float.leb (hours args) Float.zero then
    do* _ := emit [Stderr "--hours must be > 0"] in io_ret 2
  else if limit args <=? 0 then
    do* _ := emit [Stderr "--limit must be > 0"] in io_ret 2
  else
    let end_utc := now in
    do* delta := lift (Datetime.timedelta_hours (hours args)) in
    do* start_utc := lift (Datetime.sub end_utc delta) in
    let p := build_params start_utc end_utc (min_mag args) (limit args) in
    do* data := fetch_quakes p in
    do* quakes := lift (parse_geojson data) in
    let quakes_sorted := sort_quakes quakes (order args) in
    do* _ := emit (map Stdout (print_results quakes_sorted (limit args))) in
    do* _ :=
      (if wants_plot args then
         let title :=
           "Earthquakes past " +:+ format_g (hours args) +:+ "h (min M"
           +:+ format_g (min_mag args) +:+ ")" in
         let quakes_by_time := sort_quakes quakes "time" in
         emit (plot_quakes quakes_by_time title (save_plot args)
                 (negb (no_show args)))
       else io_ret tt) in
    io_ret 0.

End Program.

(** * Statements *)

(** ** What the parser is given *)

(** The [properties] of a feature, when the feature is a dict that has
    them as a dict. *)
Definition properties (f : json) : option dict :=
  match f with
  | JDict d =>
      match dict_lookup d "properties" with
      | Some (JDict p) => Some p
      | _ => None
      end
  | _ => None
  end.

(** A feature lacks a field when its properties do not have it, or have it
    as [null]. *)
Definition lacks (f : json) (k : string) : bool :=
  match properties f with
  | Some p => is_None (dict_get p k)
  | None => true
  end.

Definition lacks_mag_or_time (f : json) : bool :=
  lacks f "mag" || lacks f "time".

(** The coordinates of a feature, when [geometry] is a dict that has them
    as a list. *)
Definition coordinates (f : json) : option (list json) :=
  match f with
  | JDict d =>
      match dict_lookup d "geometry" with
      | Some (JDict g) =>
          match dict_lookup g "coordinates" with
          | Some (JList c) => Some c
          | _ => None
          end
      | _ => None
      end
  | _ => None
  end.

(** What one feature adds to the list. *)
Definition records {B : Builtins} (f : json) : list Quake :=
  match parse_feature f with
  | Ok (Some q) => [q]
  | _ => []
  end.

Definition SCHEMA_ERROR : exn :=
  RuntimeError "Unexpected response: 'features' missing or not a list.".

(** ** Orders on a list *)

(** Every pair of neighbours of [l] is in [R]. *)
Definition adjacent {A : Type} (R : A -> A -> Prop) (l : list A) : Prop :=
  forall (i : nat) (a b : A), l !! i = Some a -> l !! S i = Some b -> R a b.

(** The elements whose key equals [k] come in the same order in [l'] as in
    [l], for every [k]. *)
Definition ties_kept {A K : Type} (key : A -> K) (eqb : K -> K -> bool)
    (l l' : list A) : Prop :=
  forall k : K,
    List.filter (fun a => eqb (key a) k) l'
    = List.filter (fun a => eqb (key a) k) l.

Definition magnitude_ge (a b : Quake) : Prop :=
  Float.geb (magnitude a) (magnitude b) = true.

Definition time_ge (a b : Quake) : Prop :=
  Datetime.geb (time_utc a) (time_utc b) = true.

Definition no_nan (quakes : list Quake) : Prop :=
  Forall (fun q => Float.is_nan (magnitude q) = false) quakes.

(** ** Runs *)

(** The events of a trace that reach the network. *)
Definition is_request (e : event) : bool :=
  match e with HttpGet _ _ _ => true | _ => false end.

(** The request a run sent, if it sent one. *)
Fixpoint requested (t : list event) : option params :=
  match t with
  | [] => None
  | HttpGet _ p _ :: _ => Some p
  | _ :: t' => requested t'
  end.

(** [main] gets past its two checks. *)
Definition accepted (args : Args) : bool :=
  negb (Float.leb (hours args) Float.zero) && negb (limit args <=? 0).

(** The start of the window [main] computes. *)
Definition window_start (now : datetime) (args : Args) : result datetime :=
  let* delta := Datetime.timedelta_hours (hours args) in
  Datetime.sub now delta.

(** What [main] does once the response is decoded. *)
Definition after_fetch {B : Builtins} (args : Args) (data : json) : io Z :=
  do* quakes := lift (parse_geojson data) in
  do* _ := emit (map Stdout
                   (print_results (sort_quakes quakes (order args)) (limit args))) in
  do* _ :=
    (if wants_plot args then
       emit (plot_quakes (sort_quakes quakes "time")
               ("Earthquakes past " +:+ format_g (hours args) +:+ "h (min M"
                +:+ format_g (min_mag args) +:+ ")")
               (save_plot args) (negb (no_show args)))
     else io_ret tt) in
  io_ret 0.

(** The message of the error raised on a status that is not 200. *)
Definition status_error (status : Z) (excerpt : string) : exn :=
  RuntimeError ("USGS API returned HTTP " +:+ pretty status +:+ ": " +:+ excerpt).

(** [s] is what [full] starts with. *)
Fixpoint str_prefix (s full : string) : bool :=
  match s, full with
  | EmptyString, _ => true
  | String c s', String c' full' => Ascii.eqb c c' && str_prefix s' full'
  | String _ _, EmptyString => false
  end.

(** Every run of [args] that ends well asks the server for [fetch]
    records and lists the records it got cut at [display]. *)
Definition runs_with {B : Builtins} (args : Args) (fetch display : Z) : Prop :=
  forall now requests_get trace,
    main now requests_get args = (trace, Ok 0) ->
    exists start body data quakes chart,
      requests_get USGS_QUERY_ENDPOINT
        (build_params start now (min_mag args) fetch) DEFAULT_TIMEOUT_SECONDS
      = Response (mkResponse 200 body (Some data))
      /\ parse_geojson data = Ok quakes
      /\ trace
         = HttpGet USGS_QUERY_ENDPOINT
             (build_params start now (min_mag args) fetch)
             DEFAULT_TIMEOUT_SECONDS
           :: map Stdout
                (print_results (sort_quakes quakes (order args)) display)
           ++ chart.

(** Some run of [args] ends well. *)
Definition runnable {B : Builtins} (args : Args) : Prop :=
  exists now requests_get trace, main now requests_get args = (trace, Ok 0).

(** ** The window of a request *)

(** Reading back a timestamp [YYYY-MM-DDTHH:MM:SS]: the seconds since the
    epoch it denotes. *)
Definition digit_val (c : ascii) : option Z :=
  let n := Z.of_nat (nat_of_ascii c) in
  if (48 <=? n) && (n <=? 57) then Some (n - 48) else None.

Fixpoint undec_from (acc : Z) (s : string) : option Z :=
  match s with
  | EmptyString => Some acc
  | String c s' =>
      match digit_val c with
      | Some d => undec_from (acc * 10 + d) s'
      | None => None
      end
  end.

Definition undec (s : string) : option Z :=
  match s with
  | EmptyString => None
  | _ => undec_from 0 s
  end.

Definition separators (s : string) : bool :=
  match String.get 4 s, String.get 7 s, String.get 10 s, String.get 13 s,
        String.get 16 s with
  | Some c1, Some c2, Some c3, Some c4, Some c5 =>
      Ascii.eqb c1 "-" && Ascii.eqb c2 "-" && Ascii.eqb c3 "T"
      && Ascii.eqb c4 ":" && Ascii.eqb c5 ":"
  | _, _, _, _, _ => false
  end.

Definition seconds_of_iso (s : string) : option Z :=
  if negb (String.length s =? 19)%nat || negb (separators s) then None
  else
    match undec (substring 0 4 s), undec (substring 5 2 s),
          undec (substring 8 2 s), undec (substring 11 2 s),
          undec (substring 14 2 s), undec (substring 17 2 s) with
    | Some y, Some m, Some d, Some h, Some mi, Some sec =>
        Some (Datetime.to_seconds (Datetime.mkDatetime y m d h mi sec 0))
    | _, _, _, _, _, _ => None
    end.

(** [k] times the exact value of the float [x] is the integer [v]. *)
Definition scaled (x : float) (k v : Z) : Prop :=
  match x with
  | S754_zero _ => v = 0
  | S754_finite s m e =>
      if 0 <=? e then v = k * Float.signed s m * 2 ^ e
      else v * 2 ^ (- e) = k * Float.signed s m
  | _ => False
  end.

(** [x] is the whole number [n]. *)
Definition whole (x : float) (n : Z) : Prop := scaled x 1 n.

(** [h] hours are [secs] whole seconds, and [timedelta(hours=h)] is that
    long exactly. *)
Definition exact_window (h : float) (secs : Z) : Prop :=
  scaled h 3600 secs
  /\ forall delta,
       Datetime.timedelta_hours h = Ok delta ->
       delta = secs * Datetime.US_PER_SECOND.

(** The window of the request of a run: its two timestamps, read back,
    are in order and exactly [hours] hours apart. *)
Definition window_exact {B : Builtins} (now : datetime)
    (requests_get : string -> params -> Z -> http_outcome) (args : Args) : Prop :=
  exists p starttime endtime s e,
    requested (fst (main now requests_get args)) = Some p
    /\ param p "starttime" = Some starttime
    /\ param p "endtime" = Some endtime
    /\ seconds_of_iso starttime = Some s
    /\ seconds_of_iso endtime = Some e
    /\ s < e
    /\ scaled (hours args) 3600 (e - s).

(** ** Examples *)

(** The float a decimal literal [m * 10 ^ -k] denotes: the nearest
    binary64. *)
Definition decimal (m : Z) (k : nat) : float :=
  Float.true_div m (10 ^ Z.of_nat k).

(** An instance of the conversions of text, to run the program on
    examples whose numbers are JSON numbers already. *)
Definition plain_builtins : Builtins := {|
  float_of_str := fun _ => None;
  int_of_str := fun _ => None;
  str_of_value := fun _ => Raise TypeError;
  repr_float := format_1f;
  format_g := format_1f
|}.

(** The feature of the specification's example. *)
Definition example_feature : json :=
  JDict [("type", JStr "Feature");
         ("properties",
          JDict [("mag", JFloat (decimal 48 1));
                 ("place", JStr "10km NW of X");
                 ("time", JInt 1700000000000)]);
         ("geometry",
          JDict [("type", JStr "Point");
                 ("coordinates",
                  JList [JFloat (decimal (-1224) 1);
                         JFloat (decimal 378 1);
                         JFloat (decimal 105 1)])])].

(** The same feature with a position of two numbers only. *)
Definition flat_feature : json :=
  JDict [("type", JStr "Feature");
         ("properties",
          JDict [("mag", JFloat (decimal 48 1));
                 ("place", JStr "10km NW of X");
                 ("time", JInt 1700000000000)]);
         ("geometry",
          JDict [("type", JStr "Point");
                 ("coordinates",
                  JList [JFloat (decimal (-1224) 1);
                         JFloat (decimal 378 1)])])].

Definition feature_collection (features : list json) : json :=
  JDict [("type", JStr "FeatureCollection"); ("features", JList features)].

(** The record of the specification's example: 2023-11-14 22:13:20 UTC is
    1700000000 seconds after the epoch. *)
Definition example_quake : Quake := {|
  magnitude := decimal 48 1;
  place := "10km NW of X";
  time_utc := Datetime.mkDatetime 2023 11 14 22 13 20 0;
  url := "";
  lon := decimal (-1224) 1;
  lat := decimal 378 1;
  depth_km := decimal 105 1
|}.

(** Six copies of the example feature, served with status 200. *)
Definition six_features : json :=
  feature_collection (replicate 6 example_feature).

Definition quake_of_magnitude (m : float) : Quake :=
  mkQuake m "" (Datetime.mkDatetime 1970 1 1 0 0 0 0) "" Float.zero Float.zero
    Float.zero.

(** A list on which the magnitude order is not total. *)
Definition nan_quakes : list Quake :=
  [quake_of_magnitude (decimal 10 1); quake_of_magnitude Float.nan].

(** A clock. *)
Definition example_now : datetime :=
  Datetime.mkDatetime 2026 11 4 12 0 0 500000.

(** The start of the default window at [example_now]. *)
Definition example_start : datetime :=
  Datetime.mkDatetime 2026 11 3 12 0 0 500000.

(** The defaults of [parse_args]. *)
Definition default_args : Args := {|
  hours := Float.of_Z 24;
  min_mag := decimal 25 1;
  limit := 20;
  order := "magnitude";
  plot := false;
  save_plot := None;
  no_show := false
|}.

(** [--hours 0.5] *)
Definition half_hour_args : Args := {|
  hours := decimal 5 1;
  min_mag := decimal 25 1;
  limit := 20;
  order := "time";
  plot := false;
  save_plot := None;
  no_show := false
|}.

(** [--hours] set to [2 ** -40]: above zero, and less than half a
    microsecond. *)
Definition short_args : Args := {|
  hours := Float.true_div 1 (2 ^ 40);
  min_mag := decimal 25 1;
  limit := 20;
  order := "magnitude";
  plot := false;
  save_plot := None;
  no_show := false
|}.

(** [--hours 1e8]: a window that starts before the year 1. *)
Definition far_args : Args := {|
  hours := Float.of_Z (10 ^ 8);
  min_mag := decimal 25 1;
  limit := 20;
  order := "magnitude";
  plot := false;
  save_plot := None;
  no_show := false
|}.

(** [--limit 0] *)
Definition zero_limit_args : Args := {|
  hours := Float.of_Z 24;
  min_mag := decimal 25 1;
  limit := 0;
  order := "magnitude";
  plot := false;
  save_plot := None;
  no_show := false
|}.

(** Two servers: one that cannot be reached, one that always gives the
    same answer. *)
Definition offline : string -> params -> Z -> http_outcome :=
  fun _ _ _ => RequestException "connection refused".

Definition server (resp : response) : string -> params -> Z -> http_outcome :=
  fun _ _ _ => Response resp.

Definition six_server : string -> params -> Z -> http_outcome :=
  server (mkResponse 200 "" (Some six_features)).

(** A status 500 answer. *)
Definition error_response : response :=
  mkResponse 500 "Internal Server Error" None.

(** A document without a feature list. *)
Definition odd_document : dict := [("features", JStr "none")].

Definition odd_response : response :=
  mkResponse 200 "" (Some (JDict odd_document)).

(** ** Further statements *)

(** A field of the properties read as text: absent and [null] read as the
    empty text, a string as itself. *)
Definition text_field (p : dict) (k : string) : option string :=
  match dict_lookup p k with
  | None | Some JNull => Some EmptyString
  | Some (JStr s) => Some s
  | Some _ => None
  end.

(** A position too short to have a depth: a list or a string of fewer than
    three elements. *)
Definition short_position (c : json) : bool :=
  match c with
  | JList l => (length l <? 3)%nat
  | JStr s => (String.length s <? 3)%nat
  | _ => false
  end.

(** The exception with which a feature that lacks [mag] or [time] leaves
    the loop, when it does.  Its geometry must be an object that has
    [coordinates], for the properties to be looked into; properties that
    are there but are no object raise on [props.get], and properties that
    are an object let the position be read, which raises when it is too
    short. *)
Definition escape_of (f : json) : option exn :=
  match f with
  | JDict d =>
      match dict_lookup d "properties", dict_lookup d "geometry" with
      | Some props, Some (JDict g) =>
          match dict_lookup g "coordinates" with
          | Some c =>
              match props with
              | JDict _ => if short_position c then Some IndexError else None
              | _ => Some AttributeError
              end
          | None => None
          end
      | _, _ => None
      end
  | _ => None
  end.

(** The keys [sort_quakes] compares are totally ordered by [<]: times
    always are, magnitudes when none is NaN. *)
Definition keys_ordered (order : string) (quakes : list Quake) : Prop :=
  order = "time" \/ no_nan quakes.

(** Two times are the same instant. *)
Definition time_eqb (a b : datetime) : bool :=
  match Datetime.compare a b with Eq => true | _ => false end.

(** The order [sort_quakes] puts two neighbours in: the second is not
    above the first, by the key of [order]. *)
Definition in_order (order : string) (a b : Quake) : Prop :=
  if String.eqb order "time"
  then Datetime.ltb (time_utc a) (time_utc b) = false
  else Float.ltb (magnitude a) (magnitude b) = false.

(** The record has a page to point at. *)
Definition has_url (q : Quake) : bool := negb (String.eqb (url q) EmptyString).

(** The title of the chart of a run. *)
Definition chart_title {B : Builtins} (args : Args) : string :=
  "Earthquakes past " +:+ format_g (hours args) +:+ "h (min M"
  +:+ format_g (min_mag args) +:+ ")".

(** What a run draws once it has its records. *)
Definition chart_events {B : Builtins} (args : Args) (quakes : list Quake)
  : list event :=
  if wants_plot args then
    plot_quakes (sort_quakes quakes "time") (chart_title args)
      (save_plot args) (negb (no_show args))
  else [].

Definition NETWORK_ERROR (msg : string) : exn :=
  RuntimeError ("Network error while calling USGS API: " +:+ msg).

Definition JSON_ERROR : exn :=
  RuntimeError "USGS API response was not valid JSON.".

(** The ways a run can go. *)
Inductive outcome {B : Builtins} (now : datetime)
    (requests_get : string -> params -> Z -> http_outcome) (args : Args)
  : io Z -> Prop :=
  | rejected_hours :
      Float.leb (hours args) Float.zero = true ->
      outcome now requests_get args ([Stderr "--hours must be > 0"], Ok 2)
  | rejected_limit :
      Float.leb (hours args) Float.zero = false -> limit args <= 0 ->
      outcome now requests_get args ([Stderr "--limit must be > 0"], Ok 2)
  | no_window e :
      accepted args = true -> window_start now args = Raise e ->
      outcome now requests_get args ([], Raise e)
  | no_data start e :
      accepted args = true -> window_start now args = Ok start ->
      fetch_quakes requests_get
        (build_params start now (min_mag args) (limit args))
      = ([HttpGet USGS_QUERY_ENDPOINT
           (build_params start now (min_mag args) (limit args))
           DEFAULT_TIMEOUT_SECONDS],
         Raise e) ->
      outcome now requests_get args
        ([HttpGet USGS_QUERY_ENDPOINT
           (build_params start now (min_mag args) (limit args))
           DEFAULT_TIMEOUT_SECONDS],
         Raise e)
  | no_records start body data e :
      accepted args = true -> window_start now args = Ok start ->
      requests_get USGS_QUERY_ENDPOINT
        (build_params start now (min_mag args) (limit args))
        DEFAULT_TIMEOUT_SECONDS
      = Response (mkResponse 200 body (Some data)) ->
      parse_geojson data = Raise e ->
      outcome now requests_get args
        ([HttpGet USGS_QUERY_ENDPOINT
           (build_params start now (min_mag args) (limit args))
           DEFAULT_TIMEOUT_SECONDS],
         Raise e)
  | listed start body data quakes :
      accepted args = true -> window_start now args = Ok start ->
      requests_get USGS_QUERY_ENDPOINT
        (build_params start now (min_mag args) (limit args))
        DEFAULT_TIMEOUT_SECONDS
      = Response (mkResponse 200 body (Some data)) ->
      parse_geojson data = Ok quakes ->
      outcome now requests_get args
        (HttpGet USGS_QUERY_ENDPOINT
           (build_params start now (min_mag args) (limit args))
           DEFAULT_TIMEOUT_SECONDS
         :: map Stdout
              (print_results (sort_quakes quakes (order args)) (limit args))
         ++ chart_events args quakes,
         Ok 0).


(** ** Further examples *)

(** A feature without magnitude whose position has two numbers only. *)
Definition bare_flat_feature : json :=
  JDict [("type", JStr "Feature");
         ("properties",
          JDict [("place", JStr "10km NW of X");
                 ("time", JInt 1700000000000)]);
         ("geometry",
          JDict [("type", JStr "Point");
                 ("coordinates",
                  JList [JFloat (decimal (-1224) 1);
                         JFloat (decimal 378 1)])])].

(** A feature without properties. *)
Definition no_properties_feature : json :=
  JDict [("type", JStr "Feature");
         ("geometry",
          JDict [("type", JStr "Point");
                 ("coordinates",
                  JList [JFloat (decimal (-1224) 1);
                         JFloat (decimal 378 1)])])].

(** A feature whose properties are [null]. *)
Definition null_properties_feature : json :=
  JDict [("properties", JNull);
         ("geometry", JDict [("coordinates", JList [])])].

(** A feature whose time is [Infinity]. *)
Definition infinite_time_feature : json :=
  JDict [("properties",
          JDict [("mag", JFloat (decimal 48 1));
                 ("time", JFloat (S754_infinity false))]);
         ("geometry",
          JDict [("coordinates",
                  JList [JFloat (decimal (-1224) 1);
                         JFloat (decimal 378 1);
                         JFloat (decimal 105 1)])])].

(** A feature with a page, no place, and a position of four numbers. *)
Definition page_properties : dict :=
  [("mag", JFloat (decimal 48 1));
   ("place", JNull);
   ("time", JInt 1700000000000);
   ("url", JStr "https://earthquake.usgs.gov/earthquakes/eventpage/x")].

Definition page_coordinates : list json :=
  [JFloat (decimal (-1224) 1); JFloat (decimal 378 1); JFloat (decimal 105 1);
   JFloat (decimal 1 0)].

Definition page_feature : dict :=
  [("properties", JDict page_properties);
   ("geometry", JDict [("coordinates", JList page_coordinates)])].

Definition page_quake : Quake := {|
  magnitude := decimal 48 1;
  place := "(unknown location)";
  time_utc := Datetime.mkDatetime 2023 11 14 22 13 20 0;
  url := "https://earthquake.usgs.gov/earthquakes/eventpage/x";
  lon := decimal (-1224) 1;
  lat := decimal 378 1;
  depth_km := decimal 105 1
|}.

(** [--hours nan] *)
Definition nan_hours_args : Args := {|
  hours := Float.nan;
  min_mag := decimal 25 1;
  limit := 20;
  order := "magnitude";
  plot := false;
  save_plot := None;
  no_show := false
|}.

(** [--plot --no-show] *)
Definition plot_args : Args := {|
  hours := Float.of_Z 24;
  min_mag := decimal 25 1;
  limit := 20;
  order := "magnitude";
  plot := true;
  save_plot := None;
  no_show := true
|}.

(** Servers that answer with no feature, with one, with a page that is
    not JSON, and with a JSON list. *)
Definition empty_server : string -> params -> Z -> http_outcome :=
  server (mkResponse 200 "" (Some (feature_collection []))).

Definition one_server : string -> params -> Z -> http_outcome :=
  server (mkResponse 200 "" (Some (feature_collection [example_feature]))).

Definition html_server : string -> params -> Z -> http_outcome :=
  server (mkResponse 200 "<html></html>" None).

Definition list_server : string -> params -> Z -> http_outcome :=
  server (mkResponse 200 "[]" (Some (JList []))).

(** * Proofs *)

(** ** The parser *)

Lemma bind_Ok {X Y : Type} (m : result X) (k : X -> result Y) (y : Y) :
  bind m k = Ok y -> exists x, m = Ok x /\ k x = Ok y.
Proof. destruct m as [x|e]; simpl; [eauto | discriminate]. Qed.

(** Takes a chain of binds that returned apart, one step at a time. *)
Ltac bind_inv H :=
  let x := fresh "x" in
  let E := fresh "E" in
  apply bind_Ok in H; destruct H as (x & E & H).

Section ParserFacts.
Context {B : Builtins}.

Lemma getitem_Ok (v : json) (k : string) (x : json) :
  getitem v k = Ok x -> exists d, v = JDict d /\ dict_lookup d k = Some x.
Proof.
  destruct v; simpl; try discriminate.
  destruct (dict_lookup d k) eqn:E; [|discriminate].
  intros [= ->]. eauto.
Qed.

Lemma get_Ok (v : json) (k : string) (x : json) :
  get v k = Ok x -> exists d, v = JDict d /\ x = dict_get d k.
Proof. destruct v; simpl; try discriminate. intros [= <-]. eauto. Qed.

Lemma parse_feature_Some (f : json) (q : Quake) :
  parse_feature f = Ok (Some q) -> feature_body f = Ok (Some q).
Proof.
  unfold parse_feature. destruct (feature_body f) as [r|e]; [easy|].
  destruct (caught e); discriminate.
Qed.

(** A record is only built from properties that have both fields. *)
Lemma feature_body_Some (f : json) (q : Quake) :
  feature_body f = Ok (Some q) -> lacks_mag_or_time f = false.
Proof.
  unfold feature_body. intros Hb.
  bind_inv Hb. apply getitem_Ok in E as (d & -> & Hp).
  bind_inv Hb. bind_inv Hb.
  bind_inv Hb. apply get_Ok in E1 as (p & -> & ->).
  bind_inv Hb. bind_inv Hb. apply get_Ok in E2 as (p' & [= <-] & ->).
  bind_inv Hb. bind_inv Hb. bind_inv Hb. bind_inv Hb.
  unfold lacks_mag_or_time, lacks, properties. rewrite Hp.
  destruct (is_None (dict_get p "mag") || is_None (dict_get p "time"));
    [discriminate | reflexivity].
Qed.

Lemma records_lacking (f : json) :
  lacks_mag_or_time f = true -> records f = [].
Proof.
  intros Hl. unfold records.
  destruct (parse_feature f) as [[q|]|e] eqn:E; try reflexivity.
  apply parse_feature_Some, feature_body_Some in E. congruence.
Qed.

(** What the loop does with an incomplete feature: it skips it, or ends
    with the exception of [escape_of]. *)
Lemma parse_feature_lacking_cases (f : json) :
  lacks_mag_or_time f = true ->
  parse_feature f
  = match escape_of f with Some e => Raise e | None => Ok None end.
Proof.
  destruct f as [| | | | | |d]; try reflexivity.
  unfold lacks_mag_or_time, lacks, properties, escape_of, parse_feature,
    feature_body, getitem.
  destruct (dict_lookup d "properties") as [props|]; [|reflexivity].
  destruct (dict_lookup d "geometry") as [[| | | | | |g]|]; try reflexivity.
  cbn [bind].
  destruct (dict_lookup g "coordinates") as [c|]; [|reflexivity].
  cbn [bind].
  destruct props as [| | | | | |p]; try reflexivity.
  unfold get. cbn [bind]. intros Hl.
  destruct c as [| | | |s|l|gd]; try reflexivity.
  - destruct s as [|a [|b [|c s]]]; try reflexivity.
    cbn. now rewrite Hl.
  - destruct l as [|c0 [|c1 [|c2 l]]]; try reflexivity.
    cbn. now rewrite Hl.
Qed.

Lemma parse_features_acc (features : list json) (acc quakes : list Quake) :
  parse_features features acc = Ok quakes ->
  quakes = acc ++ flat_map records features.
Proof.
  revert acc. induction features as [|f rest IH]; simpl; intros acc Hp.
  - injection Hp as <-. now rewrite app_nil_r.
  - bind_inv Hp. apply IH in Hp. subst quakes.
    unfold records. rewrite E.
    destruct x; simpl; [now rewrite <- app_assoc | reflexivity].
Qed.

Lemma parse_features_total (features : list json) (acc : list Quake) :
  Forall (fun f => exists r, parse_feature f = Ok r) features ->
  parse_features features acc = Ok (acc ++ flat_map records features).
Proof.
  intros Hall. revert acc.
  induction Hall as [|f rest [r Hf] _ IH]; simpl; intros acc.
  - now rewrite app_nil_r.
  - rewrite Hf; simpl. rewrite IH. unfold records. rewrite Hf.
    destruct r; simpl; [now rewrite <- app_assoc | reflexivity].
Qed.

Lemma parse_geojson_features (d : dict) (features : list json) :
  dict_lookup d "features" = Some (JList features) ->
  parse_geojson (JDict d) = parse_features features [].
Proof.
  intros Hf. unfold parse_geojson, get, dict_get; simpl. now rewrite Hf.
Qed.

Lemma parse_features_bind (features : list json) (acc : list Quake) :
  parse_features features acc
  = let* quakes := parse_features features [] in Ok (acc ++ quakes).
Proof.
  revert acc. induction features as [|f rest IH]; intros acc; simpl.
  - now rewrite app_nil_r.
  - destruct (parse_feature f) as [[q|]|e]; simpl; [|apply IH|reflexivity].
    rewrite (IH (acc ++ [q])), (IH [q]).
    destruct (parse_features rest []) as [l|e]; simpl; [|reflexivity].
    now rewrite <- app_assoc.
Qed.

Lemma parse_features_app (l1 l2 : list json) (acc : list Quake) :
  parse_features (l1 ++ l2) acc
  = let* a := parse_features l1 acc in parse_features l2 a.
Proof.
  revert acc. induction l1 as [|f rest IH]; intros acc; simpl; [reflexivity|].
  destruct (parse_feature f) as [r|e]; simpl; [apply IH|reflexivity].
Qed.

Lemma parse_geojson_collection (features : list json) :
  parse_geojson (feature_collection features) = parse_features features [].
Proof. reflexivity. Qed.

Lemma parse_features_skip (l1 l2 : list json) (f : json) (acc : list Quake) :
  parse_feature f = Ok None ->
  parse_features (l1 ++ f :: l2) acc = parse_features (l1 ++ l2) acc.
Proof.
  intros Hf. rewrite !parse_features_app.
  destruct (parse_features l1 acc) as [a|e]; simpl; [|reflexivity].
  now rewrite Hf.
Qed.

Lemma parse_features_Ok_all (features : list json) (acc quakes : list Quake) :
  parse_features features acc = Ok quakes ->
  Forall (fun f => exists r, parse_feature f = Ok r) features.
Proof.
  revert acc. induction features as [|f rest IH]; intros acc; simpl;
    [constructor|].
  destruct (parse_feature f) as [r|e] eqn:E; simpl; [|discriminate].
  intros Hp. constructor; [now exists r|]. now apply IH in Hp.
Qed.

Lemma parse_feature_lacking_Ok (f : json) (r : option Quake) :
  lacks_mag_or_time f = true -> parse_feature f = Ok r -> r = None.
Proof.
  intros Hl Hf. destruct r as [q|]; [|reflexivity].
  apply parse_feature_Some, feature_body_Some in Hf. congruence.
Qed.


Lemma parse_geojson_not_list (d : dict) :
  dict_lookup d "features" = None
  \/ (exists v, dict_lookup d "features" = Some v
                /\ forall l, v <> JList l) ->
  parse_geojson (JDict d) = Raise SCHEMA_ERROR.
Proof.
  unfold parse_geojson, get, dict_get; simpl.
  intros [-> | (v & -> & Hv)]; simpl; [reflexivity|].
  destruct v; try reflexivity.
  now contradiction (Hv l).
Qed.

Lemma parse_features_Raise (f : json) (rest : list json) (acc : list Quake)
    (e : exn) :
  feature_body f = Raise e -> caught e = false ->
  parse_features (f :: rest) acc = Raise e.
Proof.
  intros Hb Hc. simpl. unfold parse_feature. now rewrite Hb, Hc.
Qed.

(** A position of fewer than three elements raises [IndexError] in a
    feature that has its properties. *)
Lemma feature_body_flat_position (d p g : dict) (c : list json) :
  dict_lookup d "properties" = Some (JDict p) ->
  dict_lookup d "geometry" = Some (JDict g) ->
  dict_lookup g "coordinates" = Some (JList c) ->
  (length c < 3)%nat ->
  feature_body (JDict d) = Raise IndexError.
Proof.
  intros Hp Hg Hc Hlen. unfold feature_body; simpl.
  rewrite Hp, Hg; simpl. rewrite Hc; simpl.
  destruct c as [|c0 [|c1 [|c2 c]]]; simpl in Hlen |- *;
    try reflexivity; lia.
Qed.

(** A feature without [geometry], or whose geometry has no [coordinates],
    is skipped: the [KeyError] is caught. *)
Lemma parse_feature_no_geometry (d : dict) (props : json) :
  dict_lookup d "properties" = Some props ->
  dict_lookup d "geometry" = None ->
  parse_feature (JDict d) = Ok None.
Proof.
  intros Hp Hg. unfold parse_feature, feature_body; simpl.
  now rewrite Hp, Hg.
Qed.

Lemma parse_feature_no_coordinates (d g : dict) (props : json) :
  dict_lookup d "properties" = Some props ->
  dict_lookup d "geometry" = Some (JDict g) ->
  dict_lookup g "coordinates" = None ->
  parse_feature (JDict d) = Ok None.
Proof.
  intros Hp Hg Hc. unfold parse_feature, feature_body; simpl.
  rewrite Hp, Hg; simpl. now rewrite Hc.
Qed.

(** C10: a feature with magnitude and time whose position has fewer than
    three elements is not skipped: the [IndexError] of the access to the
    position is not among the exceptions the loop catches, and the whole
    parse raises it, whatever the other features are.  A feature without
    geometry or without coordinates is skipped, as the claim says. *)
Theorem parse_geojson_flat_position :
  feature_body flat_feature = Raise IndexError
  /\ caught IndexError = false
  /\ parse_geojson (feature_collection [flat_feature]) = Raise IndexError
  /\ parse_geojson (feature_collection [flat_feature; example_feature])
     = Raise IndexError
  /\ (forall d p g c rest,
         dict_lookup d "properties" = Some (JDict p) ->
         dict_lookup d "geometry" = Some (JDict g) ->
         dict_lookup g "coordinates" = Some (JList c) ->
         (length c < 3)%nat ->
         parse_geojson (feature_collection (JDict d :: rest))
         = Raise IndexError)
  /\ (forall d props,
         dict_lookup d "properties" = Some props ->
         dict_lookup d "geometry" = None ->
         parse_feature (JDict d) = Ok None)
  /\ (forall d g props,
         dict_lookup d "properties" = Some props ->
         dict_lookup d "geometry" = Some (JDict g) ->
         dict_lookup g "coordinates" = None ->
         parse_feature (JDict d) = Ok None).
Proof.
  repeat split; try reflexivity.
  - intros d p g c rest Hp Hg Hc Hlen.
    change (parse_geojson (feature_collection (JDict d :: rest)))
      with (parse_features (JDict d :: rest) []).
    apply parse_features_Raise; [|reflexivity].
    now apply (feature_body_flat_position d p g c).
  - apply parse_feature_no_geometry.
  - apply parse_feature_no_coordinates.
Qed.

End ParserFacts.



(** ** The request and the run *)

Lemma str_take_prefix (n : nat) (s : string) :
  str_prefix (str_take n s) s = true.
Proof.
  revert s. induction n as [|n IH]; intros [|c s]; simpl; try reflexivity.
  now rewrite Ascii.eqb_refl, IH.
Qed.

Lemma str_take_length (n : nat) (s : string) :
  String.length (str_take n s) = Nat.min n (String.length s).
Proof.
  revert s. induction n as [|n IH]; intros [|c s]; simpl; try reflexivity.
  now rewrite IH.
Qed.

Lemma io_bind_lift_Ok {X Y : Type} (x : X) (k : X -> io Y) :
  io_bind (lift (Ok x)) k = k x.
Proof. unfold io_bind, lift. now destruct (k x). Qed.

Lemma io_bind_lift_Raise {X Y : Type} (e : exn) (k : X -> io Y) :
  io_bind (lift (Raise e)) k = ([], Raise e).
Proof. reflexivity. Qed.

Lemma io_bind_Ok {X Y : Type} (m : io X) (k : X -> io Y) (t : list event)
    (y : Y) :
  io_bind m k = (t, Ok y) ->
  exists t1 x t2, m = (t1, Ok x) /\ k x = (t2, Ok y) /\ t = t1 ++ t2.
Proof.
  unfold io_bind. destruct m as [t1 [x|e]]; [|discriminate].
  destruct (k x) as [t2 r] eqn:Ek. intros [= <- ->].
  exists t1, x, t2. auto.
Qed.

Lemma lift_Ok {X : Type} (r : result X) (t : list event) (x : X) :
  lift r = (t, Ok x) -> r = Ok x /\ t = [].
Proof. unfold lift. now intros [= <- ->]. Qed.

Section RunFacts.
Context {B : Builtins}.
Variable now : datetime.
Variable requests_get : string -> params -> Z -> http_outcome.

Abbreviation get_event p :=
  (HttpGet USGS_QUERY_ENDPOINT p DEFAULT_TIMEOUT_SECONDS).

Lemma main_unfold (args : Args) :
  main now requests_get args
  = if Float.leb (hours args) Float.zero then
      do* _ := emit [Stderr "--hours must be > 0"] in io_ret 2
    else if limit args <=? 0 then
      do* _ := emit [Stderr "--limit must be > 0"] in io_ret 2
    else
      do* delta := lift (Datetime.timedelta_hours (hours args)) in
      do* start_utc := lift (Datetime.sub now delta) in
      do* data := fetch_quakes requests_get
                    (build_params start_utc now (min_mag args) (limit args)) in
      after_fetch args data.
Proof. reflexivity. Qed.

Lemma main_accepted (args : Args) (start : datetime) :
  accepted args = true ->
  window_start now args = Ok start ->
  main now requests_get args
  = do* data := fetch_quakes requests_get
                  (build_params start now (min_mag args) (limit args)) in
    after_fetch args data.
Proof.
  unfold accepted, window_start. intros Hacc Hw.
  apply andb_prop in Hacc as [Hh Hl].
  apply negb_true_iff in Hh, Hl.
  apply bind_Ok in Hw as (delta & Hd & Hw).
  rewrite main_unfold, Hh, Hl, Hd, io_bind_lift_Ok, Hw, io_bind_lift_Ok.
  reflexivity.
Qed.

Lemma fetch_quakes_status (p : params) (resp : response) :
  requests_get USGS_QUERY_ENDPOINT p DEFAULT_TIMEOUT_SECONDS = Response resp ->
  status_code resp <> 200 ->
  fetch_quakes requests_get p
  = ([get_event p],
     Raise (status_error (status_code resp) (str_take 300 (text resp)))).
Proof.
  intros Hr Hs. unfold fetch_quakes. rewrite Hr.
  apply Z.eqb_neq in Hs. rewrite Hs. reflexivity.
Qed.

(** C6: on a response whose status is not 200, the fetch raises the
    status error; its message ends with the first 300 characters at most
    of the body; and a run that got this response stops there, with the
    request as its only event: nothing is parsed or printed. *)
Theorem fetch_quakes_http_error (p : params) (resp : response) :
  requests_get USGS_QUERY_ENDPOINT p DEFAULT_TIMEOUT_SECONDS = Response resp ->
  status_code resp <> 200 ->
  let excerpt := str_take 300 (text resp) in
  fetch_quakes requests_get p
  = ([get_event p], Raise (status_error (status_code resp) excerpt))
  /\ str_prefix excerpt (text resp) = true
  /\ (String.length excerpt <= 300)%nat
  /\ forall args start,
       accepted args = true ->
       window_start now args = Ok start ->
       p = build_params start now (min_mag args) (limit args) ->
       main now requests_get args
       = ([get_event p], Raise (status_error (status_code resp) excerpt)).
Proof.
  intros Hr Hs excerpt.
  pose proof (fetch_quakes_status p resp Hr Hs) as Hf.
  split; [exact Hf|]. split; [apply str_take_prefix|]. split.
  - unfold excerpt. rewrite str_take_length. lia.
  - intros args start Hacc Hw ->.
    rewrite (main_accepted args start Hacc Hw), Hf. reflexivity.
Qed.

(** C7: when the hours are not above zero, or the limit is not, the run
    writes one line to the error stream and returns 2; there is no other
    event, so no request is made. *)
Theorem main_rejects_nonpositive (args : Args) :
  Float.leb (hours args) Float.zero = true \/ limit args <= 0 ->
  exists msg,
    main now requests_get args = ([Stderr msg], Ok 2)
    /\ filter is_request (fst (main now requests_get args)) = [].
Proof.
  intros Hbad. unfold main.
  destruct (Float.leb (hours args) Float.zero) eqn:Hh.
  - eexists. split; reflexivity.
  - destruct Hbad as [Hbad | Hl]; [discriminate|].
    apply Z.leb_le in Hl. rewrite Hl.
    eexists. split; reflexivity.
Qed.

(** C5: a document whose [features] entry is absent, or is not a list,
    makes the parser raise the schema error instead of returning a list;
    nothing in [main] catches it, so a run that got such a document ends
    with this error right after the request. *)
Theorem parse_geojson_schema_error (d : dict) :
  dict_lookup d "features" = None
  \/ (exists v, dict_lookup d "features" = Some v
                /\ forall l, v <> JList l) ->
  parse_geojson (JDict d) = Raise SCHEMA_ERROR
  /\ forall args start body,
       accepted args = true ->
       window_start now args = Ok start ->
       requests_get USGS_QUERY_ENDPOINT
         (build_params start now (min_mag args) (limit args))
         DEFAULT_TIMEOUT_SECONDS
       = Response (mkResponse 200 body (Some (JDict d))) ->
       main now requests_get args
       = ([get_event (build_params start now (min_mag args) (limit args))],
          Raise SCHEMA_ERROR).
Proof.
  intros Hd. pose proof (parse_geojson_not_list d Hd) as Hp.
  split; [exact Hp|].
  intros args start body Hacc Hw Hr.
  rewrite (main_accepted args start Hacc Hw).
  unfold fetch_quakes, after_fetch. rewrite Hr; simpl. rewrite Hp.
  reflexivity.
Qed.

Lemma fetch_quakes_trace (p : params) :
  exists r, fetch_quakes requests_get p = ([get_event p], r).
Proof.
  unfold fetch_quakes.
  destruct (requests_get _ _ _) as [msg|resp]; [eexists; reflexivity|].
  destruct (negb _); [eexists; reflexivity|].
  destruct (json_body resp); eexists; reflexivity.
Qed.

Lemma fetch_quakes_Ok (p : params) (t : list event) (data : json) :
  fetch_quakes requests_get p = (t, Ok data) ->
  t = [get_event p]
  /\ exists body,
      requests_get USGS_QUERY_ENDPOINT p DEFAULT_TIMEOUT_SECONDS
      = Response (mkResponse 200 body (Some data)).
Proof.
  unfold fetch_quakes.
  destruct (requests_get _ _ _) as [msg|[st body jb]]; [discriminate|].
  simpl. destruct (Z.eqb_spec st 200) as [->|]; [|discriminate].
  simpl. destruct jb as [d|]; [|discriminate].
  intros [= <- <-]. split; [reflexivity|]. now exists body.
Qed.

Lemma fetch_quakes_served (p : params) (body : string) (data : json) :
  requests_get USGS_QUERY_ENDPOINT p DEFAULT_TIMEOUT_SECONDS
  = Response (mkResponse 200 body (Some data)) ->
  fetch_quakes requests_get p = ([get_event p], Ok data).
Proof. intros Hr. unfold fetch_quakes. now rewrite Hr. Qed.

Lemma requested_bind_fetch {Y : Type} (p : params) (k : json -> io Y) :
  requested (fst (io_bind (fetch_quakes requests_get p) k)) = Some p.
Proof.
  destruct (fetch_quakes_trace p) as [r ->].
  unfold io_bind. destruct r as [data|e]; [|reflexivity].
  now destruct (k data).
Qed.

Lemma requested_main (args : Args) (start : datetime) :
  accepted args = true ->
  window_start now args = Ok start ->
  requested (fst (main now requests_get args))
  = Some (build_params start now (min_mag args) (limit args)).
Proof.
  intros Hacc Hw. rewrite (main_accepted args start Hacc Hw).
  apply requested_bind_fetch.
Qed.

(** A run that returns 0 went through all the steps. *)
Lemma main_Ok_0 (args : Args) (trace : list event) :
  main now requests_get args = (trace, Ok 0) ->
  accepted args = true
  /\ exists start body data quakes chart,
      window_start now args = Ok start
      /\ requests_get USGS_QUERY_ENDPOINT
           (build_params start now (min_mag args) (limit args))
           DEFAULT_TIMEOUT_SECONDS
         = Response (mkResponse 200 body (Some data))
      /\ parse_geojson data = Ok quakes
      /\ trace
         = get_event (build_params start now (min_mag args) (limit args))
           :: map Stdout
                (print_results (sort_quakes quakes (order args)) (limit args))
           ++ chart.
Proof.
  rewrite main_unfold. unfold accepted, window_start.
  destruct (Float.leb (hours args) Float.zero); [discriminate|].
  destruct (limit args <=? 0); [discriminate|].
  intros Hm. split; [reflexivity|].
  apply io_bind_Ok in Hm as (t1 & delta & t2 & Hd & Hm & ->).
  apply lift_Ok in Hd as [Hd ->].
  apply io_bind_Ok in Hm as (t1 & start & t3 & Hs & Hm & ->).
  apply lift_Ok in Hs as [Hs ->].
  apply io_bind_Ok in Hm as (t1 & data & t4 & Hf & Hm & ->).
  apply fetch_quakes_Ok in Hf as [-> [body Hr]].
  unfold after_fetch in Hm.
  apply io_bind_Ok in Hm as (t1 & quakes & t5 & Hp & Hm & ->).
  apply lift_Ok in Hp as [Hp ->].
  apply io_bind_Ok in Hm as (t1 & [] & t6 & He & Hm & ->).
  injection He as <-.
  exists start, body, data, quakes, t6.
  rewrite Hd. simpl. auto.
Qed.

(** And a run whose request is answered with records returns 0. *)
Lemma main_served (args : Args) (start : datetime) (body : string)
    (data : json) (quakes : list Quake) :
  accepted args = true ->
  window_start now args = Ok start ->
  requests_get USGS_QUERY_ENDPOINT
    (build_params start now (min_mag args) (limit args))
    DEFAULT_TIMEOUT_SECONDS
  = Response (mkResponse 200 body (Some data)) ->
  parse_geojson data = Ok quakes ->
  exists chart,
    main now requests_get args
    = (get_event (build_params start now (min_mag args) (limit args))
       :: map Stdout
            (print_results (sort_quakes quakes (order args)) (limit args))
       ++ chart,
       Ok 0).
Proof.
  intros Hacc Hw Hr Hp.
  rewrite (main_accepted args start Hacc Hw).
  rewrite (fetch_quakes_served _ body data Hr).
  unfold io_bind at 1. unfold after_fetch.
  rewrite Hp, io_bind_lift_Ok.
  unfold io_bind, emit, io_ret.
  destruct (wants_plot args); [eexists | exists []]; reflexivity.
Qed.

End RunFacts.

Lemma parse_geojson_schema_error_witness :
  parse_geojson (B := plain_builtins) (JDict odd_document) = Raise SCHEMA_ERROR
  /\ main (B := plain_builtins) example_now (server odd_response) default_args
     = ([HttpGet USGS_QUERY_ENDPOINT
           (build_params (B := plain_builtins) example_start example_now
              (min_mag default_args) (limit default_args))
           DEFAULT_TIMEOUT_SECONDS],
        Raise SCHEMA_ERROR).
Proof.
  destruct (parse_geojson_schema_error (B := plain_builtins) example_now
              (server odd_response) odd_document) as [Hp Hm].
  - right. exists (JStr "none"). split; [reflexivity | discriminate].
  - split; [exact Hp|].
    apply (Hm default_args example_start "").
    + reflexivity.
    + vm_compute. reflexivity.
    + reflexivity.
Defined.

(** C5, as stated, fails on a document that is not an object: it has no
    "features" field either, but [data.get] raises an [AttributeError]
    before the field is looked at, and the run ends with that instead of
    the schema error. *)
Lemma parse_geojson_schema_error_not_object :
  parse_geojson (B := plain_builtins) (JList []) = Raise AttributeError
  /\ parse_geojson (B := plain_builtins) JNull = Raise AttributeError
  /\ AttributeError <> SCHEMA_ERROR
  /\ main (B := plain_builtins) example_now list_server default_args
     = ([HttpGet USGS_QUERY_ENDPOINT
           (build_params (B := plain_builtins) example_start example_now
              (min_mag default_args) (limit default_args))
           DEFAULT_TIMEOUT_SECONDS],
        Raise AttributeError).
Proof.
  split; [reflexivity|]. split; [reflexivity|]. split; [discriminate|].
  vm_compute. reflexivity.
Qed.

Lemma fetch_quakes_http_error_witness :
  main (B := plain_builtins) example_now (server error_response) default_args
  = ([HttpGet USGS_QUERY_ENDPOINT
        (build_params (B := plain_builtins) example_start example_now
           (min_mag default_args) (limit default_args))
        DEFAULT_TIMEOUT_SECONDS],
     Raise (status_error 500 "Internal Server Error")).
Proof.
  destruct (fetch_quakes_http_error (B := plain_builtins) example_now
              (server error_response)
              (build_params (B := plain_builtins) example_start example_now
                 (min_mag default_args) (limit default_args))
              error_response eq_refl) as (_ & _ & _ & Hm).
  - discriminate.
  - apply (Hm default_args example_start).
    + reflexivity.
    + vm_compute. reflexivity.
    + reflexivity.
Defined.

Lemma main_rejects_nonpositive_witness :
  exists msg,
    main (B := plain_builtins) example_now offline zero_limit_args
    = ([Stderr msg], Ok 2)
    /\ filter is_request
         (fst (main (B := plain_builtins) example_now offline zero_limit_args))
       = [].
Proof.
  apply (main_rejects_nonpositive (B := plain_builtins) example_now offline
           zero_limit_args).
  right. simpl. lia.
Defined.

(** ** The presenters *)

(** C8: on an empty list the text presenter prints the "no matches" line
    and nothing else, and the chart presenter prints the "no data" line
    without any chart operation; both return. *)
Theorem presenters_empty (limit : Z) (title : string)
    (save_path : option string) (show : bool) :
  print_results [] limit = ["No earthquakes matched your filters."]
  /\ plot_quakes [] title save_path show = [Stdout "No data to plot."].
Proof. split; reflexivity. Qed.

(** ** Sorting *)

Section SortedFacts.
Context {A K : Type} (key : A -> K) (lt : K -> K -> bool).
Hypothesis lt_asym : forall x y, lt x y = true -> lt y x = false.

(** [a] may stand before [b] in ascending order. *)
Let asc (a b : A) : Prop := lt (key b) (key a) = false.
(** [a] may stand before [b] in descending order. *)
Let desc (a b : A) : Prop := lt (key a) (key b) = false.

Lemma insert_HdRel (a x : A) (l : list A) :
  asc a x -> HdRel asc a l -> HdRel asc a (insert key lt x l).
Proof.
  intros Hax Hal. destruct l as [|y l]; simpl.
  - now constructor.
  - destruct (lt (key y) (key x)); constructor; [|exact Hax].
    now apply HdRel_inv in Hal.
Qed.

Lemma insert_Sorted (x : A) (l : list A) :
  Sorted asc l -> Sorted asc (insert key lt x l).
Proof.
  induction 1 as [|y l Hs IH Hhd]; simpl.
  - repeat constructor.
  - destruct (lt (key y) (key x)) eqn:E.
    + constructor; [exact IH|].
      apply insert_HdRel; [|exact Hhd]. unfold asc. now apply lt_asym.
    + repeat constructor; assumption.
Qed.

Lemma sort_ascending_Sorted (l : list A) :
  Sorted asc (sort_ascending key lt l).
Proof.
  induction l as [|x l IH]; simpl; [constructor | now apply insert_Sorted].
Qed.

Lemma Sorted_snoc (R : A -> A -> Prop) (l : list A) (x : A) :
  Sorted R l -> (forall y, last l = Some y -> R y x) -> Sorted R (l ++ [x]).
Proof.
  induction 1 as [|a l Hs IH Hhd]; simpl; intros Hlast.
  - repeat constructor.
  - constructor.
    + apply IH. intros y Hy. apply Hlast.
      destruct l; [discriminate | exact Hy].
    + destruct l as [|b l]; simpl.
      * constructor. now apply Hlast.
      * constructor. now apply HdRel_inv in Hhd.
Qed.

Lemma Sorted_rev (R : A -> A -> Prop) (l : list A) :
  Sorted R l -> Sorted (fun a b => R b a) (rev l).
Proof.
  induction 1 as [|a l Hs IH Hhd]; simpl; [constructor|].
  apply Sorted_snoc; [exact IH|].
  intros y Hy. destruct l as [|b l]; [discriminate|].
  simpl in Hy. rewrite last_snoc in Hy.
  injection Hy as <-. now apply HdRel_inv in Hhd.
Qed.

Lemma sorted_reverse_Sorted (l : list A) :
  Sorted desc (sorted key lt true l).
Proof.
  unfold sorted.
  apply (Sorted_rev asc), sort_ascending_Sorted.
Qed.

Lemma insert_Permutation (x : A) (l : list A) :
  Permutation (x :: l) (insert key lt x l).
Proof.
  induction l as [|y l IH]; simpl; [reflexivity|].
  destruct (lt (key y) (key x)); [|reflexivity].
  rewrite perm_swap. now constructor.
Qed.

Lemma sort_ascending_Permutation (l : list A) :
  Permutation l (sort_ascending key lt l).
Proof.
  induction l as [|x l IH]; simpl; [reflexivity|].
  rewrite <- insert_Permutation. now constructor.
Qed.

Lemma sorted_Permutation (reverse : bool) (l : list A) :
  Permutation l (sorted key lt reverse l).
Proof.
  unfold sorted. destruct reverse.
  - rewrite <- Permutation_rev, <- sort_ascending_Permutation.
    apply Permutation_rev.
  - apply sort_ascending_Permutation.
Qed.

(** Elements picked by [P] never overtake one another. *)
Section Ties.
Variable P : A -> bool.
Hypothesis P_tied :
  forall x y, P x = true -> P y = true -> lt (key y) (key x) = false.

Lemma insert_filter (x : A) (l : list A) :
  List.filter P (insert key lt x l) = List.filter P (x :: l).
Proof.
  induction l as [|y l IH]; simpl; [reflexivity|].
  destruct (lt (key y) (key x)) eqn:E; [|reflexivity].
  simpl in IH |- *. rewrite IH.
  destruct (P x) eqn:Px, (P y) eqn:Py; try reflexivity.
  rewrite (P_tied x y Px Py) in E. discriminate.
Qed.

Lemma sort_ascending_filter (l : list A) :
  List.filter P (sort_ascending key lt l) = List.filter P l.
Proof.
  induction l as [|x l IH]; simpl; [reflexivity|].
  rewrite insert_filter. simpl. now rewrite IH.
Qed.

Lemma sorted_filter (reverse : bool) (l : list A) :
  List.filter P (sorted key lt reverse l) = List.filter P l.
Proof.
  unfold sorted. destruct reverse.
  - now rewrite List.filter_rev, sort_ascending_filter, List.filter_rev,
      rev_involutive.
  - apply sort_ascending_filter.
Qed.
End Ties.

End SortedFacts.

(** On keys that [lt] orders totally, a descending arrangement that keeps
    ties in place is determined by the list: every stable sort returns
    it. *)
Section Unique.
Context {A K : Type} (key : A -> K) (lt : K -> K -> bool).
Variable ok : K -> Prop.
Hypothesis lt_irrefl : forall x, ok x -> lt x x = false.
Hypothesis not_lt_trans :
  forall x y z, ok x -> ok y -> ok z ->
    lt x y = false -> lt y z = false -> lt x z = false.

Let desc (a b : A) : Prop := lt (key a) (key b) = false.
Let tie (a b : A) : bool :=
  negb (lt (key a) (key b)) && negb (lt (key b) (key a)).

Lemma desc_head_max (a : A) (l : list A) :
  Forall (fun x => ok (key x)) (a :: l) ->
  Sorted desc (a :: l) ->
  Forall (desc a) l.
Proof.
  revert a. induction l as [|b l IH]; intros a Hok Hs; [constructor|].
  apply Sorted_inv in Hs as [Hs Hhd]. apply HdRel_inv in Hhd.
  inversion Hok as [|? ? Ha Hok']; subst.
  inversion Hok' as [|? ? Hb Hok'']; subst.
  constructor; [exact Hhd|].
  specialize (IH b Hok' Hs).
  rewrite List.Forall_forall in IH, Hok'' |- *.
  intros x Hx. unfold desc in *.
  apply (not_lt_trans _ (key b)); auto.
Qed.

Lemma stable_sort_unique (l1 l2 : list A) :
  Forall (fun x => ok (key x)) l1 ->
  Permutation l1 l2 ->
  Sorted desc l1 -> Sorted desc l2 ->
  (forall a, ok (key a) ->
             List.filter (tie a) l1 = List.filter (tie a) l2) ->
  l1 = l2.
Proof.
  revert l2. induction l1 as [|a l1 IH]; intros l2 Hok Hperm Hs1 Hs2 Hties.
  - now apply Permutation_nil in Hperm.
  - destruct l2 as [|b l2];
      [apply Permutation_sym, Permutation_nil in Hperm; discriminate|].
    assert (Hok2 : Forall (fun x => ok (key x)) (b :: l2))
      by (eapply Permutation_Forall; eassumption).
    pose proof (desc_head_max a l1 Hok Hs1) as Hmax1.
    pose proof (desc_head_max b l2 Hok2 Hs2) as Hmax2.
    assert (Ha : ok (key a)) by now inversion Hok.
    assert (Hb : ok (key b)) by now inversion Hok2.
    assert (Hab : lt (key a) (key b) = false).
    { assert (Hin : In b (a :: l1))
        by (eapply Permutation_in; [apply Permutation_sym, Hperm | now left]).
      destruct Hin as [-> | Hin]; [now apply lt_irrefl|].
      rewrite List.Forall_forall in Hmax1. now apply Hmax1. }
    assert (Hba : lt (key b) (key a) = false).
    { assert (Hin : In a (b :: l2))
        by (eapply Permutation_in; [apply Hperm | now left]).
      destruct Hin as [-> | Hin]; [now apply lt_irrefl|].
      rewrite List.Forall_forall in Hmax2. now apply Hmax2. }
    assert (Heq : a = b).
    { assert (Haa : tie a a = true)
        by (unfold tie; now rewrite (lt_irrefl _ Ha)).
      assert (Htab : tie a b = true) by (unfold tie; now rewrite Hab, Hba).
      specialize (Hties a Ha). cbn [List.filter] in Hties.
      rewrite Haa, Htab in Hties. now injection Hties. }
    subst b. f_equal.
    apply IH.
    + now inversion Hok.
    + now apply Permutation_cons_inv in Hperm.
    + now apply Sorted_inv in Hs1.
    + now apply Sorted_inv in Hs2.
    + intros c Hc. specialize (Hties c Hc). cbn [List.filter] in Hties.
      destruct (tie c a); [now injection Hties | exact Hties].
Qed.

End Unique.

Lemma Sorted_adjacent {A : Type} (R : A -> A -> Prop) (l : list A) :
  Sorted R l -> adjacent R l.
Proof.
  induction 1 as [|a l Hs IH Hhd]; intros i x y Hx Hy.
  - discriminate.
  - destruct i as [|i]; simpl in Hx, Hy.
    + injection Hx as <-. destruct l as [|b l]; [discriminate|].
      injection Hy as <-. now apply HdRel_inv in Hhd.
    + now apply (IH i).
Qed.

Lemma adjacent_Sorted {A : Type} (R : A -> A -> Prop) (l : list A) :
  adjacent R l -> Sorted R l.
Proof.
  induction l as [|a l IH]; intros Hadj; constructor.
  - apply IH. intros i x y Hx Hy. exact (Hadj (S i) x y Hx Hy).
  - destruct l as [|b l]; constructor.
    exact (Hadj 0%nat a b eq_refl eq_refl).
Qed.

(** *** The order on floats and on datetimes *)

Lemma SFcompare_antisym (x y : float) :
  SFcompare y x = option_map CompOpp (SFcompare x y).
Proof.
  destruct x as [[]|[]| |[] m1 e1], y as [[]|[]| |[] m2 e2]; simpl;
    try reflexivity;
    rewrite (Z.compare_antisym e1 e2);
    change (Pos.compare_cont Eq m2 m1) with (Pos.compare m2 m1);
    change (Pos.compare_cont Eq m1 m2) with (Pos.compare m1 m2);
    rewrite (Pos.compare_antisym m1 m2);
    destruct (e1 ?= e2), (m1 ?= m2)%positive; reflexivity.
Qed.

Lemma SFcompare_not_nan (x y : float) :
  Float.is_nan x = false -> Float.is_nan y = false ->
  exists c, SFcompare x y = Some c.
Proof.
  destruct x as [[]|[]| |[] m1 e1], y as [[]|[]| |[] m2 e2]; simpl;
    try discriminate; eauto.
Qed.

Lemma Float_ltb_asym (x y : float) :
  Float.ltb x y = true -> Float.ltb y x = false.
Proof.
  unfold Float.ltb, SFltb. rewrite (SFcompare_antisym x y).
  destruct (SFcompare x y) as [[]|]; simpl; congruence.
Qed.

(** Without NaN, "not below" is "at least". *)
Lemma Float_not_ltb_geb (x y : float) :
  Float.is_nan x = false -> Float.is_nan y = false ->
  Float.ltb x y = false -> Float.geb x y = true.
Proof.
  intros Hx Hy. unfold Float.ltb, Float.geb, SFltb, SFleb.
  rewrite (SFcompare_antisym x y).
  destruct (SFcompare_not_nan x y Hx Hy) as [c ->].
  destruct c; simpl; congruence.
Qed.

Lemma SFcompare_Eq_trans (x y k : float) :
  SFcompare x k = Some Eq -> SFcompare y k = Some Eq ->
  SFcompare y x = Some Eq.
Proof.
  assert (Hpos : forall a b, Pos.compare_cont Eq a b = Eq -> a = b)
    by (intros a b; apply Pos.compare_eq).
  assert (Hopp : forall c, CompOpp c = Eq -> c = Eq) by (now intros []).
  destruct x as [[]|[]| |[] mx ex], y as [[]|[]| |[] my ey],
        k as [[]|[]| |[] mk ek]; simpl; try discriminate; try reflexivity;
    intros H1 H2;
    destruct (ex ?= ek) eqn:E1; try discriminate;
    destruct (ey ?= ek) eqn:E2; try discriminate;
    apply Z.compare_eq in E1, E2; subst;
    injection H1 as H1; injection H2 as H2;
    try apply Hopp in H1; try apply Hopp in H2;
    apply Hpos in H1, H2; subst;
    rewrite Z.compare_refl;
    change (Pos.compare_cont Eq mk mk) with (Pos.compare mk mk);
    rewrite Pos.compare_refl; reflexivity.
Qed.

(** Two floats equal to a third are not below one another. *)
Lemma Float_eqb_tied (k x y : float) :
  Float.eqb x k = true -> Float.eqb y k = true -> Float.ltb y x = false.
Proof.
  unfold Float.eqb, Float.ltb, SFeqb, SFltb. intros Hx Hy.
  destruct (SFcompare x k) as [[]|] eqn:Ex; try discriminate.
  destruct (SFcompare y k) as [[]|] eqn:Ey; try discriminate.
  now rewrite (SFcompare_Eq_trans x y k Ex Ey).
Qed.

Lemma Float_ltb_irrefl (x : float) : Float.ltb x x = false.
Proof.
  destruct (Float.ltb x x) eqn:E; [|reflexivity].
  pose proof (Float_ltb_asym x x E). congruence.
Qed.

(** Splits a goal over the outcomes of the integer comparisons in it. *)
Ltac compare_cases :=
  repeat match goal with
         | |- context [Pos.compare_cont Eq ?a ?b] =>
             change (Pos.compare_cont Eq a b) with (Pos.compare a b)
         | H : context [Pos.compare_cont Eq ?a ?b] |- _ =>
             change (Pos.compare_cont Eq a b) with (Pos.compare a b) in H
         end;
  repeat match goal with
         | H : context [Z.compare ?a ?b] |- _ =>
             destruct (Z.compare_spec a b); simpl in H; try discriminate H
         | H : context [Pos.compare ?a ?b] |- _ =>
             destruct (Pos.compare_spec a b); simpl in H; try discriminate H
         end;
  repeat match goal with
         | |- context [Z.compare ?a ?b] => destruct (Z.compare_spec a b)
         | |- context [Pos.compare ?a ?b] => destruct (Pos.compare_spec a b)
         end;
  simpl; try reflexivity; try lia.

(** Without NaN, "not below" is transitive. *)
Lemma Float_not_ltb_trans (x y z : float) :
  Float.is_nan x = false -> Float.is_nan y = false -> Float.is_nan z = false ->
  Float.ltb x y = false -> Float.ltb y z = false -> Float.ltb x z = false.
Proof.
  unfold Float.ltb, SFltb.
  destruct x as [[]|[]| |[] mx ex], y as [[]|[]| |[] my ey],
        z as [[]|[]| |[] mz ez]; simpl; try discriminate; try reflexivity;
    intros _ _ _ H1 H2; compare_cases.
Qed.

Lemma Float_geb_not_ltb (x y : float) :
  Float.geb x y = true -> Float.ltb x y = false.
Proof.
  unfold Float.geb, Float.ltb, SFleb, SFltb.
  rewrite (SFcompare_antisym y x).
  destruct (SFcompare y x) as [[]|]; simpl; congruence.
Qed.

(** Without NaN, two floats neither of which is below the other are
    equal. *)
Lemma Float_tie_eqb (x y : float) :
  Float.is_nan x = false -> Float.is_nan y = false ->
  negb (Float.ltb x y) && negb (Float.ltb y x) = Float.eqb y x.
Proof.
  intros Hx Hy. unfold Float.ltb, Float.eqb, SFltb, SFeqb.
  rewrite (SFcompare_antisym x y).
  destruct (SFcompare_not_nan x y Hx Hy) as [c ->]. now destruct c.
Qed.

Lemma lex_compare_antisym (a b : list Z) :
  Datetime.lex_compare b a = CompOpp (Datetime.lex_compare a b).
Proof.
  revert b. induction a as [|x a IH]; intros [|y b]; simpl; try reflexivity.
  rewrite (Z.compare_antisym x y).
  destruct (x ?= y); simpl; [apply IH | reflexivity | reflexivity].
Qed.

Lemma Datetime_ltb_asym (a b : datetime) :
  Datetime.ltb a b = true -> Datetime.ltb b a = false.
Proof.
  unfold Datetime.ltb, Datetime.compare.
  rewrite (lex_compare_antisym (Datetime.fields a) (Datetime.fields b)).
  destruct (Datetime.lex_compare _ _); simpl; congruence.
Qed.

(** *** [sort_quakes] *)

Lemma sort_quakes_time_desc (quakes : list Quake) :
  adjacent (fun a b => Datetime.ltb (time_utc a) (time_utc b) = false)
    (sort_quakes quakes "time").
Proof.
  apply Sorted_adjacent.
  apply (sorted_reverse_Sorted time_utc Datetime.ltb Datetime_ltb_asym).
Qed.

(** C9: in "time" mode every pair of neighbours of the outcome has the
    later time first; the outcome is a rearrangement of the input, a
    function of the input alone, and the empty list gives the empty
    list. *)
Theorem sort_quakes_time (quakes : list Quake) :
  adjacent time_ge (sort_quakes quakes "time")
  /\ Permutation quakes (sort_quakes quakes "time")
  /\ sort_quakes [] "time" = [].
Proof.
  split; [|split; [apply sorted_Permutation | reflexivity]].
  intros i a b Ha Hb. unfold time_ge, Datetime.geb.
  now rewrite (sort_quakes_time_desc quakes i a b Ha Hb).
Qed.

Lemma sort_quakes_magnitude_desc (quakes : list Quake) :
  adjacent (fun a b => Float.ltb (magnitude a) (magnitude b) = false)
    (sort_quakes quakes "magnitude").
Proof.
  apply Sorted_adjacent.
  apply (sorted_reverse_Sorted magnitude Float.ltb Float_ltb_asym).
Qed.

(** C2, as the code has it: on records whose magnitudes are numbers (no
    NaN), every pair of neighbours of the outcome of "magnitude" mode has
    the larger magnitude first, and records of equal magnitude come in
    their input order; the outcome is the only arrangement of the input
    with these two properties. *)
Theorem sort_quakes_magnitude (quakes : list Quake) :
  no_nan quakes ->
  adjacent magnitude_ge (sort_quakes quakes "magnitude")
  /\ ties_kept magnitude Float.eqb quakes (sort_quakes quakes "magnitude")
  /\ Permutation quakes (sort_quakes quakes "magnitude")
  /\ forall l,
       Permutation quakes l ->
       adjacent magnitude_ge l ->
       ties_kept magnitude Float.eqb quakes l ->
       l = sort_quakes quakes "magnitude".
Proof.
  intros Hnan.
  assert (Hperm : Permutation quakes (sort_quakes quakes "magnitude"))
    by apply sorted_Permutation.
  assert (Hties :
           ties_kept magnitude Float.eqb quakes (sort_quakes quakes "magnitude")).
  { intros k. apply sorted_filter. intros x y. apply Float_eqb_tied. }
  split; [|split; [exact Hties|split; [exact Hperm|]]].
  - intros i a b Ha Hb.
    pose proof (Permutation_Forall Hperm Hnan) as Hall.
    rewrite List.Forall_forall in Hall.
    apply Float_not_ltb_geb.
    + apply Hall. apply list_elem_of_In. eapply list_elem_of_lookup_2, Ha.
    + apply Hall. apply list_elem_of_In. eapply list_elem_of_lookup_2, Hb.
    + exact (sort_quakes_magnitude_desc quakes i a b Ha Hb).
  - intros l Hl Hadj Hkept.
    assert (Hall : Forall (fun q => Float.is_nan (magnitude q) = false) l)
      by exact (Permutation_Forall Hl Hnan).
    apply (stable_sort_unique magnitude Float.ltb
             (fun x => Float.is_nan x = false)).
    + intros x _. apply Float_ltb_irrefl.
    + apply Float_not_ltb_trans.
    + exact Hall.
    + now rewrite <- Hl.
    + apply adjacent_Sorted. intros i a b Ha Hb.
      apply Float_geb_not_ltb. exact (Hadj i a b Ha Hb).
    + apply adjacent_Sorted, sort_quakes_magnitude_desc.
    + intros a Ha.
      assert (Htie : forall l0,
                 Forall (fun q => Float.is_nan (magnitude q) = false) l0 ->
                 List.filter
                   (fun b => negb (Float.ltb (magnitude a) (magnitude b))
                             && negb (Float.ltb (magnitude b) (magnitude a)))
                   l0
                 = List.filter
                     (fun b => Float.eqb (magnitude b) (magnitude a)) l0).
      { intros l0 Hl0. apply List.filter_ext_in. intros b Hb.
        rewrite List.Forall_forall in Hl0.
        apply Float_tie_eqb; [exact Ha | now apply Hl0]. }
      rewrite (Htie l Hall).
      rewrite (Htie _ (Permutation_Forall Hperm Hnan)).
      rewrite (Hkept (magnitude a)). symmetry. apply Hties.
Qed.

Lemma sort_quakes_magnitude_witness :
  adjacent magnitude_ge
    (sort_quakes [quake_of_magnitude (decimal 10 1);
                  quake_of_magnitude (decimal 48 1)] "magnitude").
Proof.
  apply (sort_quakes_magnitude
           [quake_of_magnitude (decimal 10 1); quake_of_magnitude (decimal 48 1)]).
  repeat constructor.
Defined.

(** C2, as stated, fails on a NaN magnitude: no order of these two records
    has the first at least as large as the second, and the order the sort
    returns is the input order. *)
Lemma sort_quakes_magnitude_nan :
  ~ adjacent magnitude_ge (sort_quakes nan_quakes "magnitude")
  /\ sort_quakes nan_quakes "magnitude" = nan_quakes
  /\ forall l, Permutation nan_quakes l -> ~ adjacent magnitude_ge l.
Proof.
  assert (Hany : forall l, Permutation nan_quakes l -> ~ adjacent magnitude_ge l).
  { intros l Hl Hadj. apply Permutation_length_2_inv in Hl as [-> | ->].
    - specialize (Hadj 0%nat _ _ eq_refl eq_refl). discriminate Hadj.
    - specialize (Hadj 0%nat _ _ eq_refl eq_refl). discriminate Hadj. }
  split; [|split; [reflexivity | exact Hany]].
  apply Hany. apply sorted_Permutation.
Qed.

(** ** The calendar *)

Section CalendarFacts.
Import Datetime.

Lemma days_before_year_split (a b c d : Z) :
  0 <= b <= 3 -> 0 <= c <= 24 -> 0 <= d <= 3 ->
  days_before_year (400 * a + 100 * b + 4 * c + d + 1)
  = 146097 * a + 36524 * b + 1461 * c + 365 * d.
Proof.
  intros Hb Hc Hd. unfold days_before_year.
  replace (400 * a + 100 * b + 4 * c + d + 1 - 1)
    with (400 * a + 100 * b + 4 * c + d) by lia.
  Z.div_mod_to_equations; lia.
Qed.

Lemma is_leap_split (a b c d : Z) :
  0 <= b <= 3 -> 0 <= c <= 24 -> 0 <= d <= 3 ->
  is_leap (400 * a + 100 * b + 4 * c + d + 1)
  = (d =? 3) && (negb (c =? 24) || (b =? 3)).
Proof.
  intros Hb Hc Hd. unfold is_leap.
  repeat match goal with
         | |- context [?x =? ?y] => destruct (Z.eqb_spec x y)
         end;
    simpl; try reflexivity; exfalso; Z.div_mod_to_equations; lia.
Qed.

(** The month and the day of the [n]-th day of a year. *)
Lemma month_day (y n : Z) (leap : bool) :
  0 <= n <= 364 -> is_leap y = leap ->
  let m := Z.shiftr (n + 50) 5 in
  let preceding :=
    DAYS_BEFORE_MONTH m + (if (2 <? m) && leap then 1 else 0) in
  let md :=
    if n <? preceding then
      (m - 1,
       n - (preceding
            - (DAYS_IN_MONTH (m - 1)
               + (if (m - 1 =? 2) && leap then 1 else 0))) + 1)
    else (m, n - preceding + 1) in
  days_before_month y (fst md) + snd md = n + 1
  /\ 1 <= fst md <= 12 /\ 1 <= snd md <= 31.
Proof.
  intros Hn Hleap. unfold days_before_month. rewrite Hleap.
  rewrite Z.shiftr_div_pow2 by lia. change (2 ^ 5) with 32.
  pose proof (Z.div_mod (n + 50) 32 ltac:(lia)) as E.
  pose proof (Z.mod_pos_bound (n + 50) 32 ltac:(lia)) as Bd.
  set (m := (n + 50) / 32) in *. cbv zeta.
  assert (Hm : m = 1 \/ m = 2 \/ m = 3 \/ m = 4 \/ m = 5 \/ m = 6 \/ m = 7
               \/ m = 8 \/ m = 9 \/ m = 10 \/ m = 11 \/ m = 12) by lia.
  clearbody m.
  destruct leap;
    repeat (destruct Hm as [-> | Hm]); try subst m; simpl;
    match goal with |- context [?a <? ?b] => destruct (Z.ltb_spec a b) end;
    simpl; lia.
Qed.

(** [ord2ymd] is a right inverse of [ymd2ord], and stays within the years
    1..9999 on the ordinals of [date.min .. date.max]. *)
Lemma ord2ymd_spec (N : Z) :
  ymd2ord (fst (fst (ord2ymd N))) (snd (fst (ord2ymd N))) (snd (ord2ymd N)) = N
  /\ (1 <= N <= 3652059 ->
      1 <= fst (fst (ord2ymd N)) <= 9999
      /\ 1 <= snd (fst (ord2ymd N)) <= 12
      /\ 1 <= snd (ord2ymd N) <= 31).
Proof.
  unfold ord2ymd, DI400Y, DI100Y, DI4Y. cbv zeta.
  pose proof (Z.div_mod (N - 1) 146097 ltac:(lia)) as E1.
  pose proof (Z.mod_pos_bound (N - 1) 146097 ltac:(lia)) as B1.
  set (a := (N - 1) / 146097) in *. set (r1 := (N - 1) mod 146097) in *.
  pose proof (Z.div_mod r1 36524 ltac:(lia)) as E2.
  pose proof (Z.mod_pos_bound r1 36524 ltac:(lia)) as B2.
  set (b := r1 / 36524) in *. set (r2 := r1 mod 36524) in *.
  pose proof (Z.div_mod r2 1461 ltac:(lia)) as E3.
  pose proof (Z.mod_pos_bound r2 1461 ltac:(lia)) as B3.
  set (c := r2 / 1461) in *. set (r3 := r2 mod 1461) in *.
  pose proof (Z.div_mod r3 365 ltac:(lia)) as E4.
  pose proof (Z.mod_pos_bound r3 365 ltac:(lia)) as B4.
  set (d := r3 / 365) in *. set (n := r3 mod 365) in *.
  clearbody a r1 b r2 c r3 d n.
  assert (Hb : 0 <= b <= 4) by lia.
  assert (Hc : 0 <= c <= 24) by lia.
  assert (Hd : 0 <= d <= 4) by lia.
  destruct (Z.eqb_spec d 4) as [Hd4 | Hd4]; simpl orb.
  - (* the last day of a leap year *)
    assert (Hb3 : 0 <= b <= 3) by lia.
    unfold fst, snd, ymd2ord, days_before_month. simpl DAYS_BEFORE_MONTH.
    replace (a * 400 + 1 + b * 100 + c * 4 + d - 1)
      with (400 * a + 100 * b + 4 * c + 3 + 1) by lia.
    rewrite days_before_year_split, is_leap_split by lia.
    assert (Hc24 : (c =? 24) = false) by (apply Z.eqb_neq; lia).
    rewrite Hc24. simpl. split; [lia|]. intros HN. lia.
  - destruct (Z.eqb_spec b 4) as [Hb4 | Hb4].
    + (* the last day of a cycle of 400 years *)
      unfold fst, snd, ymd2ord, days_before_month. simpl DAYS_BEFORE_MONTH.
      replace (a * 400 + 1 + b * 100 + c * 4 + d - 1)
        with (400 * a + 100 * 3 + 4 * 24 + 3 + 1) by lia.
      rewrite days_before_year_split, is_leap_split by lia.
      simpl. split; [lia|]. intros HN. lia.
    + assert (Hb3 : 0 <= b <= 3) by lia.
      assert (Hd3 : 0 <= d <= 3) by lia.
      replace (a * 400 + 1 + b * 100 + c * 4 + d)
        with (400 * a + 100 * b + 4 * c + d + 1) by lia.
      set (y := 400 * a + 100 * b + 4 * c + d + 1).
      set (leap := (d =? 3) && (negb (c =? 24) || (b =? 3))).
      assert (Hleap : is_leap y = leap) by (apply is_leap_split; lia).
      pose proof (month_day y n leap ltac:(lia) Hleap) as Hmd.
      cbv zeta in Hmd.
      assert (Hy : days_before_year y
                   = 146097 * a + 36524 * b + 1461 * c + 365 * d)
        by (apply days_before_year_split; lia).
      simpl orb. cbv iota.
      destruct (n <? _); unfold fst, snd in Hmd |- *; unfold ymd2ord;
        (split; [lia|]); intros HN; unfold y; lia.
Qed.

Lemma ord2ymd_eq (N : Z) :
  exists y m d,
    ord2ymd N = (y, m, d) /\ ymd2ord y m d = N
    /\ (1 <= N <= 3652059 ->
        1 <= y <= 9999 /\ 1 <= m <= 12 /\ 1 <= d <= 31).
Proof.
  pose proof (ord2ymd_spec N) as H.
  destruct (ord2ymd N) as [[y m] d]. exists y, m, d. auto.
Qed.

Lemma in_range_bounds (u : Z) :
  in_range u = true <->
  -62135596800000000 <= u <= 253402300799999999.
Proof.
  unfold in_range. change MIN_US with (-62135596800000000).
  change MAX_US with 253402300799999999. lia.
Qed.

(** The seconds of the datetime of a microsecond count. *)
Lemma to_seconds_of_us (u : Z) :
  to_seconds (of_us u) = u / US_PER_SECOND.
Proof.
  unfold of_us, US_PER_DAY, US_PER_SECOND.
  destruct (ord2ymd_eq (u / 86400000000 + EPOCH_ORD))
    as (y & m & d & -> & Hord & _).
  unfold to_seconds; simpl. rewrite Hord. unfold EPOCH_ORD.
  Z.div_mod_to_equations. lia.
Qed.

Lemma of_us_fields (u : Z) :
  in_range u = true ->
  1 <= year (of_us u) <= 9999 /\ 1 <= month (of_us u) <= 12
  /\ 1 <= day (of_us u) <= 31 /\ 0 <= hour (of_us u) < 24
  /\ 0 <= minute (of_us u) < 60 /\ 0 <= second (of_us u) < 60
  /\ 0 <= microsecond (of_us u) < 1000000.
Proof.
  intros Hu. apply in_range_bounds in Hu.
  unfold of_us, US_PER_DAY, US_PER_SECOND.
  destruct (ord2ymd_eq (u / 86400000000 + EPOCH_ORD))
    as (y & m & d & -> & _ & Hr).
  simpl. unfold EPOCH_ORD in Hr.
  assert (HN : 1 <= u / 86400000000 + 719163 <= 3652059)
    by (Z.div_mod_to_equations; lia).
  specialize (Hr HN).
  repeat split; try lia; Z.div_mod_to_equations; lia.
Qed.

Lemma valid_fields (dt : datetime) :
  valid dt ->
  1 <= year dt <= 9999 /\ 1 <= month dt <= 12 /\ 1 <= day dt <= 31
  /\ 0 <= hour dt < 24 /\ 0 <= minute dt < 60 /\ 0 <= second dt < 60
  /\ 0 <= microsecond dt < 1000000.
Proof.
  unfold valid, validb, MINYEAR, MAXYEAR, US_PER_SECOND. intros Hv.
  repeat (apply andb_prop in Hv as [Hv ?]).
  assert (Hdim : days_in_month (year dt) (month dt) <= 31).
  { unfold days_in_month.
    assert (Hm : month dt = 1 \/ month dt = 2 \/ month dt = 3
                 \/ month dt = 4 \/ month dt = 5 \/ month dt = 6
                 \/ month dt = 7 \/ month dt = 8 \/ month dt = 9
                 \/ month dt = 10 \/ month dt = 11 \/ month dt = 12) by lia.
    destruct (is_leap (year dt));
      repeat (destruct Hm as [-> | Hm]); try rewrite Hm; simpl; lia. }
  lia.
Qed.

(** *** Reading a timestamp back *)

Lemma digit_val_digit (k : Z) : 0 <= k <= 9 -> digit_val (digit k) = Some k.
Proof.
  intros Hk.
  assert (H : k = 0 \/ k = 1 \/ k = 2 \/ k = 3 \/ k = 4 \/ k = 5 \/ k = 6
              \/ k = 7 \/ k = 8 \/ k = 9) by lia.
  repeat (destruct H as [-> | H]); try subst k; reflexivity.
Qed.

Lemma dec_2 (n : Z) :
  dec 2 n
  = String (digit (n / 10 mod 10)) (String (digit (n mod 10)) EmptyString).
Proof. reflexivity. Qed.

Lemma dec_4 (n : Z) :
  dec 4 n
  = String (digit (n / 10 / 10 / 10 mod 10))
      (String (digit (n / 10 / 10 mod 10))
         (String (digit (n / 10 mod 10))
            (String (digit (n mod 10)) EmptyString))).
Proof. reflexivity. Qed.

Ltac name_digit :=
  match goal with
  | |- context [digit ?k] =>
      let c := fresh "c" in
      let H := fresh "Hc" in
      assert (H : digit_val (digit k) = Some k)
        by (apply digit_val_digit; Z.div_mod_to_equations; lia);
      set (c := digit k) in *; clearbody c
  end.

Lemma seconds_of_isoformat (dt : datetime) :
  0 <= year dt <= 9999 -> 0 <= month dt <= 99 -> 0 <= day dt <= 99 ->
  0 <= hour dt <= 99 -> 0 <= minute dt <= 99 -> 0 <= second dt <= 99 ->
  seconds_of_iso (isoformat_seconds dt) = Some (to_seconds dt).
Proof.
  destruct dt as [y m d h mi s us]; simpl. intros Hy Hm Hd Hh Hmi Hs.
  unfold isoformat_seconds; simpl year; simpl month; simpl day; simpl hour;
    simpl minute; simpl second.
  rewrite dec_4, !dec_2. cbv [String.append].
  repeat name_digit.
  unfold seconds_of_iso, separators, undec.
  cbn -[Z.add Z.mul to_seconds digit_val].
  repeat match goal with
         | H : digit_val _ = Some _ |- _ => rewrite H; clear H
         end.
  unfold to_seconds; simpl.
  f_equal.
  repeat match goal with
         | |- ?a + ?b = ?c + ?d => f_equal
         | |- ?a * ?b = ?c * ?d => f_equal
         | |- ?a - ?b = ?c - ?d => f_equal
         | |- ymd2ord _ _ _ = ymd2ord _ _ _ => f_equal
         end; Z.div_mod_to_equations; lia.
Qed.

End CalendarFacts.

(** ** The window of the request *)

Lemma Float_ltb_zero_leb (h : float) :
  Float.ltb Float.zero h = true -> Float.leb h Float.zero = false.
Proof.
  unfold Float.ltb, Float.leb, SFltb, SFleb.
  rewrite (SFcompare_antisym Float.zero h).
  destruct (SFcompare Float.zero h) as [[]|]; simpl; congruence.
Qed.

Lemma scaled_positive (h : float) (k v : Z) :
  0 < k -> Float.ltb Float.zero h = true -> scaled h k v -> 0 < v.
Proof.
  unfold scaled. intros Hk.
  destruct h as [s|s| |s m e]; try discriminate; try contradiction.
  destruct s; [discriminate|]. intros _. simpl Float.signed.
  destruct (0 <=? e) eqn:He.
  - intros ->. apply Z.leb_le in He.
    assert (0 < 2 ^ e) by (apply Z.pow_pos_nonneg; lia). nia.
  - intros Hn. apply Z.leb_gt in He.
    assert (0 < 2 ^ (- e)) by (apply Z.pow_pos_nonneg; lia). nia.
Qed.

Lemma whole_scaled (h : float) (n k : Z) :
  whole h n -> scaled h k (k * n).
Proof.
  unfold whole, scaled. destruct h as [s|s| |s m e]; try easy.
  - intros ->. lia.
  - destruct (0 <=? e); intros Hn; [rewrite Hn; ring|].
    rewrite <- Z.mul_assoc, Hn. ring.
Qed.

(** A whole number of hours is multiplied exactly. *)
Lemma timedelta_hours_whole (h : float) (n delta : Z) :
  whole h n ->
  Datetime.timedelta_hours h = Ok delta ->
  delta = n * Datetime.US_PER_HOUR.
Proof.
  unfold whole, scaled, Datetime.timedelta_hours.
  destruct h as [s|s| |s m e]; try easy.
  - intros ->. simpl. now intros [= <-].
  - unfold Float.modf.
    destruct (0 <=? e) eqn:He.
    + intros ->. cbv beta iota zeta. simpl Float.is_zero. cbv iota.
      destruct (Z.abs _ <=? _); [|discriminate]. intros [= <-]. ring.
    + intros Hn. apply Z.leb_gt in He.
      assert (Hd : 2 ^ (- e) <> 0) by (apply Z.pow_nonzero; lia).
      rewrite Z.mul_1_l in Hn. rewrite <- Hn.
      rewrite Z.quot_mul, Z.rem_mul by exact Hd.
      cbv beta iota zeta. simpl Float.is_zero. cbv iota.
      destruct (Z.abs _ <=? _); [|discriminate]. now intros [= <-].
Qed.

Lemma sub_Ok (dt start : datetime) (delta : Z) :
  Datetime.sub dt delta = Ok start ->
  Datetime.in_range (Datetime.to_us dt - delta) = true
  /\ start = Datetime.of_us (Datetime.to_us dt - delta).
Proof.
  unfold Datetime.sub.
  destruct (Datetime.in_range _); [|discriminate].
  now intros [= <-].
Qed.

Lemma seconds_of_isoformat_of_us (u : Z) :
  Datetime.in_range u = true ->
  seconds_of_iso (isoformat_utc (Datetime.of_us u))
  = Some (u / Datetime.US_PER_SECOND).
Proof.
  intros Hr. pose proof (of_us_fields _ Hr) as Hf.
  unfold isoformat_utc. rewrite seconds_of_isoformat by lia.
  now rewrite to_seconds_of_us.
Qed.

Lemma seconds_of_isoformat_valid (dt : datetime) :
  Datetime.valid dt ->
  seconds_of_iso (isoformat_utc dt) = Some (Datetime.to_seconds dt).
Proof.
  intros Hv. apply valid_fields in Hv.
  unfold isoformat_utc. apply seconds_of_isoformat; lia.
Qed.

Section WindowFacts.
Context {B : Builtins}.
Variable now : datetime.
Variable requests_get : string -> params -> Z -> http_outcome.

Lemma window_start_exact (args : Args) (secs : Z) (start : datetime) :
  exact_window (hours args) secs ->
  window_start now args = Ok start ->
  Datetime.in_range (Datetime.to_us now - secs * Datetime.US_PER_SECOND) = true
  /\ start = Datetime.of_us (Datetime.to_us now - secs * Datetime.US_PER_SECOND).
Proof.
  unfold window_start. intros [_ Hexact] Hw.
  apply bind_Ok in Hw as (delta & Hd & Hs).
  rewrite (Hexact delta Hd) in Hs.
  now apply sub_Ok.
Qed.

(** Every whole number of hours is an exact window. *)
Lemma whole_exact_window (h : float) (n : Z) :
  whole h n -> exact_window h (3600 * n).
Proof.
  intros Hwhole. split; [now apply whole_scaled|].
  intros delta Hd. rewrite (timedelta_hours_whole h n delta Hwhole Hd).
  unfold Datetime.US_PER_HOUR, Datetime.US_PER_SECOND. lia.
Qed.

Lemma window_of_exact (args : Args) (secs : Z) (start : datetime) :
  Datetime.valid now ->
  Float.ltb Float.zero (hours args) = true ->
  0 < limit args ->
  window_start now args = Ok start ->
  exact_window (hours args) secs ->
  window_exact now requests_get args.
Proof.
  intros Hnow Hpos Hlim Hw Hexact.
  assert (Hacc : accepted args = true).
  { unfold accepted. rewrite (Float_ltb_zero_leb _ Hpos).
    apply andb_true_intro; split; [reflexivity|].
    apply negb_true_iff, Z.leb_gt, Hlim. }
  pose proof (scaled_positive _ 3600 secs ltac:(lia) Hpos (proj1 Hexact))
    as Hsecs.
  destruct (window_start_exact args secs start Hexact Hw) as [Hr Hstart].
  pose proof (valid_fields _ Hnow) as Hf.
  exists (build_params start now (min_mag args) (limit args)),
    (isoformat_utc start), (isoformat_utc now),
    (Datetime.to_seconds now - secs), (Datetime.to_seconds now).
  split; [now apply requested_main|].
  split; [reflexivity|]. split; [reflexivity|].
  split; [|split; [now apply seconds_of_isoformat_valid|]].
  - rewrite Hstart, (seconds_of_isoformat_of_us _ Hr). f_equal.
    unfold Datetime.to_us, Datetime.US_PER_SECOND.
    Z.div_mod_to_equations; lia.
  - split; [lia|].
    replace (Datetime.to_seconds now - (Datetime.to_seconds now - secs))
      with secs by lia.
    exact (proj1 Hexact).
Qed.


End WindowFacts.



(** ** One limit *)

Section LimitFacts.
Context {B : Builtins}.

(** C3, as the code has it: the presenter has a limit of its own, and
    five records under a display limit of 20 are all listed under the
    header "Found 5 earthquakes. Showing up to 5:"; the program has one
    [--limit], and every run that ends well asks the server for that many
    records and cuts its listing at the same number. *)
Theorem main_one_limit (args : Args) (q1 q2 q3 q4 q5 : Quake) :
  print_results [q1; q2; q3; q4; q5] 20
  = "Found 5 earthquakes. Showing up to 5:"
    :: string_repeat "-" 80
    :: print_rows 1 [q1; q2; q3; q4; q5]
  /\ runs_with args (limit args) (limit args).
Proof.
  split; [reflexivity|].
  intros now rg trace Hm.
  apply main_Ok_0 in Hm as (_ & start & body & data & quakes & chart
                            & _ & Hr & Hp & ->).
  exists start, body, data, quakes, chart. auto.
Qed.

Lemma parse_six_features :
  parse_geojson six_features = Ok (replicate 6 example_quake).
Proof. reflexivity. Qed.

End LimitFacts.

Lemma main_one_limit_witness :
  exists start body data quakes chart,
    six_server USGS_QUERY_ENDPOINT
      (build_params (B := plain_builtins) start example_now
         (min_mag default_args) 20)
      DEFAULT_TIMEOUT_SECONDS
    = Response (mkResponse 200 body (Some data))
    /\ parse_geojson (B := plain_builtins) data = Ok quakes
    /\ fst (main (B := plain_builtins) example_now six_server default_args)
       = HttpGet USGS_QUERY_ENDPOINT
           (build_params (B := plain_builtins) start example_now
              (min_mag default_args) 20)
           DEFAULT_TIMEOUT_SECONDS
         :: map Stdout (print_results (sort_quakes quakes "magnitude") 20)
         ++ chart.
Proof.
  destruct (main_one_limit (B := plain_builtins) default_args example_quake
              example_quake example_quake example_quake example_quake)
    as [_ Hruns].
  destruct (main (B := plain_builtins) example_now six_server default_args)
    as [trace r] eqn:Hm.
  assert (Hr : r = Ok 0).
  { change r with (snd (trace, r)). rewrite <- Hm. vm_compute. reflexivity. }
  subst r. exact (Hruns example_now six_server trace Hm).
Defined.

(** C3, as stated, fails: no command line makes the program ask the server
    for 20 records and cut its listing at 5. *)
Lemma main_limits_not_independent :
  ~ exists (B : Builtins) (args : Args),
      runnable args /\ runs_with args 20 5.
Proof.
  intros (B & args & (now & rg & trace & Hrun) & Hruns).
  apply main_Ok_0 in Hrun as (Hacc & start & _ & _ & _ & _ & Hw & _).
  destruct (main_served now six_server args start "" six_features
              (replicate 6 example_quake) Hacc Hw eq_refl parse_six_features)
    as [chart Hm].
  destruct (Hruns now six_server _ Hm)
    as (start' & body & data & quakes & chart' & Hr & Hp & Ht).
  injection Hr as _ <-.
  rewrite parse_six_features in Hp. injection Hp as <-.
  pose proof (f_equal (fun t => match requested t with
                                | Some p => param p "limit"
                                | None => None
                                end) Ht) as Hlimit.
  pose proof (f_equal (@tl event) Ht) as Hlist.
  cbn [tl] in Hlist. clear Ht.
  injection Hlimit as Hlimit.
  apply (inj pretty) in Hlimit. rewrite Hlimit in Hlist.
  unfold sort_quakes in Hlist.
  destruct (String.eqb (order args) "time");
    vm_compute in Hlist; discriminate Hlist.
Qed.

(** * Further properties *)

(** ** The parser, feature by feature *)

Section ParserMore.
Context {B : Builtins}.

(** X2: parsing the features [l1 ++ l2] is parsing [l1], then [l2], and
    joining the two lists of records; an exception that leaves the first
    part leaves the whole, before the second part is looked at. *)
Theorem parse_geojson_app (l1 l2 : list json) :
  parse_geojson (feature_collection (l1 ++ l2))
  = let* a := parse_geojson (feature_collection l1) in
    let* b := parse_geojson (feature_collection l2) in
    Ok (a ++ b).
Proof.
  rewrite !parse_geojson_collection, parse_features_app.
  destruct (parse_features l1 []) as [a|e]; simpl; [|reflexivity].
  apply parse_features_bind.
Qed.

(** X3: a feature that is not a JSON object ([null], a number, a string,
    a list) is skipped: [f["properties"]] is a [TypeError], which the loop
    catches.  The document parses as if the feature were not there. *)
Theorem parse_geojson_not_object_feature (f : json) :
  (forall d, f <> JDict d) ->
  parse_feature f = Ok None
  /\ forall l1 l2,
       parse_geojson (feature_collection (l1 ++ f :: l2))
       = parse_geojson (feature_collection (l1 ++ l2)).
Proof.
  intros Hf.
  assert (H : parse_feature f = Ok None).
  { destruct f; try reflexivity. now destruct (Hf d). }
  split; [exact H|]. intros l1 l2.
  rewrite !parse_geojson_collection. now apply parse_features_skip.
Qed.

Lemma records_sublist (features : list json) :
  exists kept,
    sublist kept features
    /\ Forall2 (fun f q => parse_feature f = Ok (Some q)) kept
         (flat_map records features).
Proof.
  induction features as [|f rest (kept & Hs & Hf)]; simpl.
  - exists []. split; constructor.
  - unfold records at 1. destruct (parse_feature f) as [[q|]|e] eqn:E; simpl.
    + exists (f :: kept). split; [now constructor|now constructor].
    + exists kept. split; [now constructor|exact Hf].
    + exists kept. split; [now constructor|exact Hf].
Qed.

(** X1: the records returned are those of a subsequence of the features,
    one record for each feature kept, in the order of the features; so
    there are never more records than features. *)
Theorem parse_geojson_subsequence (d : dict) (features : list json)
    (quakes : list Quake) :
  dict_lookup d "features" = Some (JList features) ->
  parse_geojson (JDict d) = Ok quakes ->
  (length quakes <= length features)%nat
  /\ exists kept,
       sublist kept features
       /\ Forall2 (fun f q => parse_feature f = Ok (Some q)) kept quakes.
Proof.
  intros Hd H. rewrite (parse_geojson_features _ _ Hd) in H.
  apply parse_features_acc in H. simpl in H. subst quakes.
  destruct (records_sublist features) as (kept & Hs & Hf).
  split; [|now exists kept].
  rewrite <- (Forall2_length _ _ _ Hf). now apply sublist_length.
Qed.

(** X4: a feature with a float magnitude, an integer time that converts,
    and a position of at least three floats gives one record.  The place
    is the text of [place], or "(unknown location)" when that is absent,
    [null] or empty; the URL is the text of [url], or empty when absent or
    [null]; what comes after the third coordinate is not read. *)
Theorem parse_feature_defaults (d p g : dict) (c : list json)
    (m x y z secs : float) (ms : Z) (t : datetime) (pl u : string) :
  dict_lookup d "properties" = Some (JDict p) ->
  dict_lookup d "geometry" = Some (JDict g) ->
  dict_lookup g "coordinates" = Some (JList c) ->
  dict_lookup p "mag" = Some (JFloat m) ->
  dict_lookup p "time" = Some (JInt ms) ->
  text_field p "place" = Some pl ->
  text_field p "url" = Some u ->
  c !! 0%nat = Some (JFloat x) ->
  c !! 1%nat = Some (JFloat y) ->
  c !! 2%nat = Some (JFloat z) ->
  int_truediv ms 1000 = Ok secs ->
  Datetime.fromtimestamp secs = Ok t ->
  parse_feature (JDict d)
  = Ok (Some (mkQuake m
                (if String.eqb pl EmptyString then "(unknown location)" else pl)
                t u x y z)).
Proof.
  intros Hp Hg Hc Hm Ht Hpl Hu Hx Hy Hz Hs Hts.
  unfold parse_feature, feature_body, getitem, get, getindex, dict_get.
  rewrite Hp. simpl. rewrite Hg. simpl. rewrite Hc. simpl.
  rewrite Hm, Ht, Hx, Hy, Hz. simpl.
  rewrite Hs. simpl. rewrite Hts. simpl.
  unfold text_field in Hpl, Hu.
  assert (Epl : to_str (or_else (default JNull (dict_lookup p "place"))
                          (JStr "(unknown location)"))
                = Ok (if String.eqb pl EmptyString then "(unknown location)"
                      else pl)).
  { destruct (dict_lookup p "place") as [[]|]; try discriminate Hpl;
      injection Hpl as <-; try reflexivity.
    unfold or_else; simpl. now destruct (String.eqb s EmptyString). }
  assert (Eu : to_str (or_else (default JNull (dict_lookup p "url")) (JStr ""))
               = Ok u).
  { destruct (dict_lookup p "url") as [[]|]; try discriminate Hu;
      injection Hu as <-; try reflexivity.
    unfold or_else; simpl. destruct (String.eqb s EmptyString) eqn:E; simpl;
      [|reflexivity].
    apply String.eqb_eq in E. now subst. }
  rewrite Epl. simpl. rewrite Eu. reflexivity.
Qed.

Lemma parse_features_escape (before rest : list json) (f : json) (e : exn) :
  Forall (fun f => exists r, parse_feature f = Ok r) before ->
  feature_body f = Raise e -> caught e = false ->
  parse_geojson (feature_collection (before ++ f :: rest)) = Raise e.
Proof.
  intros Hb Hf He. rewrite parse_geojson_collection, parse_features_app.
  rewrite (parse_features_total before [] Hb).
  exact (parse_features_Raise f rest _ e Hf He).
Qed.

(** X5: when [properties] is there but is not an object ([null], say) and
    the geometry has its coordinates, [props.get] is an [AttributeError],
    which the loop does not catch: the whole parse ends with it, and the
    records of the features before are lost. *)
Theorem parse_geojson_properties_not_object (d g : dict) (props coords : json)
    (before rest : list json) :
  dict_lookup d "properties" = Some props ->
  (forall p, props <> JDict p) ->
  dict_lookup d "geometry" = Some (JDict g) ->
  dict_lookup g "coordinates" = Some coords ->
  Forall (fun f => exists r, parse_feature f = Ok r) before ->
  parse_geojson (feature_collection (before ++ JDict d :: rest))
  = Raise AttributeError.
Proof.
  intros Hp Hn Hg Hc Hb. apply parse_features_escape; [exact Hb| |reflexivity].
  unfold feature_body, getitem.
  rewrite Hp. simpl. rewrite Hg. simpl. rewrite Hc. simpl.
  destruct props; try reflexivity. now destruct (Hn d0).
Qed.

(** X6: a time that is an infinite float (JSON [Infinity], or a literal
    too large for a float) makes [int(t_ms)] an [OverflowError], which the
    loop does not catch: the whole parse ends with it. *)
Theorem parse_geojson_infinite_time (d p g : dict) (c : list json) (mag : json)
    (s : bool) (before rest : list json) :
  dict_lookup d "properties" = Some (JDict p) ->
  dict_lookup d "geometry" = Some (JDict g) ->
  dict_lookup g "coordinates" = Some (JList c) ->
  (3 <= length c)%nat ->
  dict_lookup p "mag" = Some mag -> mag <> JNull ->
  dict_lookup p "time" = Some (JFloat (S754_infinity s)) ->
  Forall (fun f => exists r, parse_feature f = Ok r) before ->
  parse_geojson (feature_collection (before ++ JDict d :: rest))
  = Raise OverflowError.
Proof.
  intros Hp Hg Hc Hlen Hm Hnn Ht Hb.
  apply parse_features_escape; [exact Hb| |reflexivity].
  unfold feature_body, getitem, get, getindex, dict_get.
  rewrite Hp. simpl. rewrite Hg. simpl. rewrite Hc. simpl.
  rewrite Hm, Ht. simpl.
  destruct c as [|c0 [|c1 [|c2 c']]]; simpl in Hlen; try lia. simpl.
  destruct mag; try reflexivity. now destruct Hnn.
Qed.

Lemma parse_feature_caught (f : json) (e : exn) :
  parse_feature f = Raise e -> caught e = false.
Proof.
  unfold parse_feature. destruct (feature_body f) as [r|e']; [discriminate|].
  destruct (caught e') eqn:E; [discriminate|]. now intros [= <-].
Qed.

Lemma parse_features_caught (features : list json) (acc : list Quake)
    (e : exn) :
  parse_features features acc = Raise e -> caught e = false.
Proof.
  revert acc. induction features as [|f rest IH]; intros acc; simpl;
    [discriminate|].
  destruct (parse_feature f) as [r|e'] eqn:E; simpl.
  - apply IH.
  - intros [= <-]. now apply parse_feature_caught with f.
Qed.

(** X7: whatever it is given, [parse_geojson] never ends with a
    [KeyError], a [TypeError] or a [ValueError]: inside the loop they are
    caught, and outside the loop nothing raises them. *)
Theorem parse_geojson_never_caught (data : json) (e : exn) :
  parse_geojson data = Raise e ->
  e <> KeyError /\ e <> TypeError /\ e <> ValueError.
Proof.
  intros H.
  assert (Hc : caught e = false).
  { unfold parse_geojson, get in H.
    destruct data; try (injection H as <-; reflexivity).
    simpl in H.
    destruct (dict_get d "features");
      try (injection H as <-; reflexivity).
    now apply parse_features_caught in H. }
  repeat split; intros ->; discriminate Hc.
Qed.

End ParserMore.

(** ** Runs, step by step *)

Lemma io_bind_Raise {X Y : Type} (t : list event) (e : exn) (k : X -> io Y) :
  io_bind (t, Raise e) k = (t, Raise e).
Proof. reflexivity. Qed.

Section RunMore.
Context {B : Builtins}.
Variable now : datetime.
Variable requests_get : string -> params -> Z -> http_outcome.

Abbreviation request_of p :=
  (HttpGet USGS_QUERY_ENDPOINT p DEFAULT_TIMEOUT_SECONDS).

Lemma after_fetch_Ok (args : Args) (data : json) (quakes : list Quake) :
  parse_geojson data = Ok quakes ->
  after_fetch args data
  = (map Stdout (print_results (sort_quakes quakes (order args)) (limit args))
     ++ chart_events args quakes,
     Ok 0).
Proof.
  intros Hp. unfold after_fetch, chart_events, chart_title.
  rewrite Hp, io_bind_lift_Ok.
  unfold io_bind, emit, io_ret.
  destruct (wants_plot args); now rewrite ?app_nil_r.
Qed.

Lemma after_fetch_Raise (args : Args) (data : json) (e : exn) :
  parse_geojson data = Raise e -> after_fetch args data = ([], Raise e).
Proof.
  intros Hp. unfold after_fetch. now rewrite Hp, io_bind_lift_Raise.
Qed.

Lemma accepted_checks (args : Args) :
  accepted args = true ->
  Float.leb (hours args) Float.zero = false /\ (limit args <=? 0) = false.
Proof.
  unfold accepted. destruct (Float.leb _ _); [discriminate|].
  destruct (limit args <=? 0); [discriminate|]. now split.
Qed.

Lemma main_no_window (args : Args) (e : exn) :
  accepted args = true ->
  window_start now args = Raise e ->
  main now requests_get args = ([], Raise e).
Proof.
  intros Hacc. apply accepted_checks in Hacc as [Eh El].
  rewrite main_unfold, Eh, El. unfold window_start.
  destruct (Datetime.timedelta_hours (hours args)) as [delta|e'];
    cbv [bind]; intros Ew.
  - now rewrite io_bind_lift_Ok, Ew.
  - now injection Ew as ->.
Qed.

Lemma main_outcome (args : Args) :
  outcome now requests_get args (main now requests_get args).
Proof.
  destruct (Float.leb (hours args) Float.zero) eqn:Eh.
  { rewrite main_unfold, Eh. now apply rejected_hours. }
  destruct (Z.leb_spec (limit args) 0) as [Hl|Hl].
  { rewrite main_unfold, Eh.
    apply Z.leb_le in Hl as El. rewrite El. now apply rejected_limit. }
  assert (Hacc : accepted args = true).
  { unfold accepted. rewrite Eh. apply Z.leb_gt in Hl. now rewrite Hl. }
  destruct (window_start now args) as [start|e] eqn:Ew.
  2:{ rewrite (main_no_window args e Hacc Ew). now apply no_window. }
  rewrite (main_accepted now requests_get args start Hacc Ew).
  set (p := build_params start now (min_mag args) (limit args)).
  destruct (fetch_quakes_trace requests_get p) as [[data|e] Hf].
  - rewrite Hf. apply fetch_quakes_Ok in Hf as [_ [body Hr]].
    destruct (parse_geojson data) as [quakes|e] eqn:Ep.
    + unfold io_bind. rewrite (after_fetch_Ok args data quakes Ep).
      now apply (listed now requests_get args start body data quakes).
    + unfold io_bind. rewrite (after_fetch_Raise args data e Ep).
      now apply (no_records now requests_get args start body data e).
  - rewrite Hf, io_bind_Raise. now apply (no_data now requests_get args start e).
Qed.


Lemma main_fetch_error (args : Args) (start : datetime) (e : exn) :
  accepted args = true ->
  window_start now args = Ok start ->
  fetch_quakes requests_get
    (build_params start now (min_mag args) (limit args))
  = ([request_of (build_params start now (min_mag args) (limit args))],
     Raise e) ->
  main now requests_get args
  = ([request_of (build_params start now (min_mag args) (limit args))],
     Raise e).
Proof.
  intros Hacc Hw Hf.
  rewrite (main_accepted now requests_get args start Hacc Hw), Hf.
  apply io_bind_Raise.
Qed.

Lemma main_parse_error (args : Args) (start : datetime) (body : string)
    (data : json) (e : exn) :
  accepted args = true ->
  window_start now args = Ok start ->
  requests_get USGS_QUERY_ENDPOINT
    (build_params start now (min_mag args) (limit args))
    DEFAULT_TIMEOUT_SECONDS
  = Response (mkResponse 200 body (Some data)) ->
  parse_geojson data = Raise e ->
  main now requests_get args
  = ([request_of (build_params start now (min_mag args) (limit args))],
     Raise e).
Proof.
  intros Hacc Hw Hr Hp.
  rewrite (main_accepted now requests_get args start Hacc Hw).
  rewrite (fetch_quakes_served requests_get _ body data Hr).
  unfold io_bind. now rewrite (after_fetch_Raise args data e Hp).
Qed.

Lemma main_listed (args : Args) (start : datetime) (body : string)
    (data : json) (quakes : list Quake) :
  accepted args = true ->
  window_start now args = Ok start ->
  requests_get USGS_QUERY_ENDPOINT
    (build_params start now (min_mag args) (limit args))
    DEFAULT_TIMEOUT_SECONDS
  = Response (mkResponse 200 body (Some data)) ->
  parse_geojson data = Ok quakes ->
  main now requests_get args
  = (request_of (build_params start now (min_mag args) (limit args))
     :: map Stdout
          (print_results (sort_quakes quakes (order args)) (limit args))
     ++ chart_events args quakes,
     Ok 0).
Proof.
  intros Hacc Hw Hr Hp.
  rewrite (main_accepted now requests_get args start Hacc Hw).
  rewrite (fetch_quakes_served requests_get _ body data Hr).
  unfold io_bind. now rewrite (after_fetch_Ok args data quakes Hp).
Qed.

(** X8: a document that is not a JSON object (a list, a number, [null])
    has no [get]: [parse_geojson] ends with an [AttributeError], not with
    the error about the missing feature list, and so does a run whose
    request is answered with such a document. *)
Theorem parse_geojson_not_object (data : json) :
  (forall d, data <> JDict d) ->
  parse_geojson data = Raise AttributeError
  /\ forall args start body,
       accepted args = true ->
       window_start now args = Ok start ->
       requests_get USGS_QUERY_ENDPOINT
         (build_params start now (min_mag args) (limit args))
         DEFAULT_TIMEOUT_SECONDS
       = Response (mkResponse 200 body (Some data)) ->
       main now requests_get args
       = ([request_of (build_params start now (min_mag args) (limit args))],
          Raise AttributeError).
Proof.
  intros H.
  assert (Hp : parse_geojson data = Raise AttributeError).
  { destruct data; try reflexivity. now destruct (H d). }
  split; [exact Hp|]. intros args start body Hacc Hw Hr.
  exact (main_parse_error args start body data _ Hacc Hw Hr Hp).
Qed.

(** X9: whatever the server does, [fetch_quakes] sends one request, to
    the query endpoint with the parameters it was given and a timeout of
    20 seconds, and never a second one; when it fails, it fails with a
    [RuntimeError]. *)
Theorem fetch_quakes_once (p : params) :
  exists r,
    fetch_quakes requests_get p
    = ([HttpGet "https://earthquake.usgs.gov/fdsnws/event/1/query" p 20], r)
    /\ forall e, r = Raise e -> exists msg, e = RuntimeError msg.
Proof.
  unfold fetch_quakes.
  destruct (requests_get _ _ _) as [msg|resp].
  { eexists; split; [reflexivity|]. intros e [= <-]. now eexists. }
  destruct (negb _).
  { eexists; split; [reflexivity|]. intros e [= <-]. now eexists. }
  destruct (json_body resp); eexists; (split; [reflexivity|]).
  - discriminate.
  - intros e [= <-]. now eexists.
Qed.

(** X10: [fetch_quakes] returns a document exactly when the answer has
    status 200 and a body that decodes as JSON, and the document is that
    body decoded. *)
Theorem fetch_quakes_returns (p : params) (data : json) :
  snd (fetch_quakes requests_get p) = Ok data
  <-> exists body,
        requests_get USGS_QUERY_ENDPOINT p DEFAULT_TIMEOUT_SECONDS
        = Response (mkResponse 200 body (Some data)).
Proof.
  split.
  - destruct (fetch_quakes requests_get p) as [t r] eqn:E. simpl.
    intros ->. now apply fetch_quakes_Ok in E as [_ H].
  - intros [body Hr]. now rewrite (fetch_quakes_served requests_get p body data Hr).
Qed.

(** X11: when [requests.get] raises a [RequestException],
    [fetch_quakes] raises a [RuntimeError] whose message is "Network error
    while calling USGS API: " and the text of the exception; a run ends
    with this error after its one request, with nothing printed. *)
Theorem fetch_quakes_network_error (p : params) (msg : string) :
  requests_get USGS_QUERY_ENDPOINT p DEFAULT_TIMEOUT_SECONDS
  = RequestException msg ->
  fetch_quakes requests_get p = ([request_of p], Raise (NETWORK_ERROR msg))
  /\ forall args start,
       accepted args = true ->
       window_start now args = Ok start ->
       p = build_params start now (min_mag args) (limit args) ->
       main now requests_get args
       = ([request_of p], Raise (NETWORK_ERROR msg)).
Proof.
  intros Hr.
  assert (Hf : fetch_quakes requests_get p
               = ([request_of p], Raise (NETWORK_ERROR msg))).
  { unfold fetch_quakes. now rewrite Hr. }
  split; [exact Hf|]. intros args start Hacc Hw ->.
  exact (main_fetch_error args start _ Hacc Hw Hf).
Qed.

(** X12: an answer of status 200 whose body does not decode as JSON
    makes [fetch_quakes] raise the [RuntimeError] "USGS API response was
    not valid JSON."; a run ends with this error after its one request,
    with nothing printed. *)
Theorem fetch_quakes_invalid_json (p : params) (body : string) :
  requests_get USGS_QUERY_ENDPOINT p DEFAULT_TIMEOUT_SECONDS
  = Response (mkResponse 200 body None) ->
  fetch_quakes requests_get p = ([request_of p], Raise JSON_ERROR)
  /\ forall args start,
       accepted args = true ->
       window_start now args = Ok start ->
       p = build_params start now (min_mag args) (limit args) ->
       main now requests_get args = ([request_of p], Raise JSON_ERROR).
Proof.
  intros Hr.
  assert (Hf : fetch_quakes requests_get p = ([request_of p], Raise JSON_ERROR)).
  { unfold fetch_quakes. now rewrite Hr. }
  split; [exact Hf|]. intros args start Hacc Hw ->.
  exact (main_fetch_error args start _ Hacc Hw Hf).
Qed.

(** X13: a run that returns, returns 0 or 2.  It returns 2 exactly when
    one of the two checks rejects the arguments, and then all it did was
    write one line to standard error: the line about [--hours] when
    [hours <= 0], whatever the limit is, and the line about [--limit]
    otherwise. *)
Theorem main_exit_status (args : Args) (t : list event) (c : Z) :
  main now requests_get args = (t, Ok c) ->
  (c = 0 \/ c = 2)
  /\ (c = 2 <-> accepted args = false)
  /\ (c = 2 ->
      t = [Stderr (if Float.leb (hours args) Float.zero
                   then "--hours must be > 0" else "--limit must be > 0")]).
Proof.
  intros Hm. pose proof (main_outcome args) as H. rewrite Hm in H.
  inversion H as [Eh|Eh El| | | |start body data quakes Hacc]; subst.
  - split; [now right|]. split; [|now rewrite Eh].
    unfold accepted. now rewrite Eh.
  - split; [now right|]. split; [|now rewrite Eh].
    unfold accepted. rewrite Eh. apply Z.leb_le in El. now rewrite El.
  - split; [now left|]. split; [|discriminate].
    rewrite Hacc. split; discriminate.
Qed.

Lemma filter_request_stdout (lines : list string) :
  List.filter is_request (map Stdout lines) = [].
Proof. induction lines as [|l lines IH]; [reflexivity|exact IH]. Qed.

Lemma filter_request_plot (quakes : list Quake) (title : string)
    (save_path : option string) (show : bool) :
  List.filter is_request (plot_quakes quakes title save_path show) = [].
Proof.
  unfold plot_quakes. destruct quakes as [|q quakes]; [reflexivity|].
  destruct show, save_path as [path|]; try reflexivity;
    destruct (String.eqb path EmptyString); reflexivity.
Qed.

Lemma filter_request_chart (args : Args) (quakes : list Quake) :
  List.filter is_request (chart_events args quakes) = [].
Proof.
  unfold chart_events. destruct (wants_plot args); [|reflexivity].
  apply filter_request_plot.
Qed.

(** X14: no run sends more than one request, and a run that sends one
    sends it before it writes or draws anything. *)
Theorem main_one_request (args : Args) :
  exists rest,
    List.filter is_request rest = []
    /\ (fst (main now requests_get args) = rest
        \/ exists p, fst (main now requests_get args) = request_of p :: rest).
Proof.
  destruct (main_outcome args).
  - eexists; split; [|left; reflexivity]. reflexivity.
  - eexists; split; [|left; reflexivity]. reflexivity.
  - exists []; split; [reflexivity|now left].
  - exists []; split; [reflexivity|right; now eexists].
  - exists []; split; [reflexivity|right; now eexists].
  - eexists; split; [|right; eexists; reflexivity].
    now rewrite List.filter_app, filter_request_stdout, filter_request_chart.
Qed.

(** X15: [--hours nan] and [--hours inf] get past the check
    ([hours <= 0] is false of both), and [timedelta] then raises: a
    [ValueError] for NaN, an [OverflowError] for infinity.  The run ends
    with the exception before any request, with nothing written. *)
Theorem main_hours_not_finite (args : Args) :
  0 < limit args ->
  (hours args = S754_nan ->
   main now requests_get args = ([], Raise ValueError))
  /\ (hours args = S754_infinity false ->
      main now requests_get args = ([], Raise OverflowError)).
Proof.
  intros Hl. apply Z.leb_gt in Hl.
  split; intros Hh; apply main_no_window;
    unfold accepted, window_start; rewrite Hh, ?Hl; reflexivity.
Qed.

Lemma sort_quakes_nil (order : string) : sort_quakes [] order = [].
Proof. unfold sort_quakes. now destruct (String.eqb order "time"). Qed.

(** X16: a run whose answer holds no usable feature writes the line
    "No earthquakes matched your filters."; when a chart was asked for it
    writes "No data to plot." as well, and draws nothing; it returns 0. *)
Theorem main_nothing_found (args : Args) (start : datetime) (body : string)
    (data : json) :
  accepted args = true ->
  window_start now args = Ok start ->
  requests_get USGS_QUERY_ENDPOINT
    (build_params start now (min_mag args) (limit args))
    DEFAULT_TIMEOUT_SECONDS
  = Response (mkResponse 200 body (Some data)) ->
  parse_geojson data = Ok [] ->
  main now requests_get args
  = (request_of (build_params start now (min_mag args) (limit args))
     :: Stdout "No earthquakes matched your filters."
     :: (if wants_plot args then [Stdout "No data to plot."] else []),
     Ok 0).
Proof.
  intros Hacc Hw Hr Hp.
  rewrite (main_listed args start body data [] Hacc Hw Hr Hp).
  unfold chart_events. rewrite !sort_quakes_nil.
  now destruct (wants_plot args).
Qed.

Lemma adjacent_map {X Y : Type} (f : X -> Y) (R : Y -> Y -> Prop)
    (l : list X) :
  adjacent (fun a b => R (f a) (f b)) l -> adjacent R (map f l).
Proof.
  intros H i a b Ha Hb.
  rewrite list_lookup_fmap in Ha, Hb.
  destruct (l !! i) as [x|] eqn:Ex; [|discriminate].
  destruct (l !! S i) as [y|] eqn:Ey; [|discriminate].
  injection Ha as <-. injection Hb as <-. now apply (H i).
Qed.

Lemma plot_quakes_series (quakes : list Quake) (title : string)
    (save_path : option string) (show : bool) (times : list datetime)
    (mags : list float) :
  In (Chart (Plot times mags)) (plot_quakes quakes title save_path show) ->
  times = map time_utc quakes /\ mags = map magnitude quakes.
Proof.
  unfold plot_quakes. destruct quakes as [|q quakes].
  { intros [H|[]]. discriminate H. }
  intros H. repeat (apply in_app_or in H as [H|H]).
  - destruct show; [destruct H|]. destruct H as [H|[]]. discriminate H.
  - simpl in H.
    destruct H as [H|[H|H]]; [discriminate H| |].
    + now injection H as <- <-.
    + repeat (destruct H as [H|H]; [discriminate H|]). destruct H.
  - destruct save_path as [path|]; [|destruct H].
    destruct (String.eqb path EmptyString); [destruct H|].
    destruct H as [H|[H|[]]]; discriminate H.
  - destruct H as [H|[]]. now destruct show.
Qed.

(** X17: whatever [--order] is, the series a run charts are the times
    and magnitudes of the records parsed from the answer to its request,
    sorted by time, newest first: no time in the series is earlier than
    the one after it. *)
Theorem main_charts_by_time (args : Args) (t : list event)
    (times : list datetime) (mags : list float) :
  main now requests_get args = (t, Ok 0) ->
  In (Chart (Plot times mags)) t ->
  adjacent (fun a b => Datetime.geb a b = true) times
  /\ exists start body data quakes,
       window_start now args = Ok start
       /\ requests_get USGS_QUERY_ENDPOINT
            (build_params start now (min_mag args) (limit args))
            DEFAULT_TIMEOUT_SECONDS
          = Response (mkResponse 200 body (Some data))
       /\ parse_geojson data = Ok quakes
       /\ times = map time_utc (sort_quakes quakes "time")
       /\ mags = map magnitude (sort_quakes quakes "time").
Proof.
  intros Hm Hin. pose proof (main_outcome args) as H. rewrite Hm in H.
  inversion H as [| | | | |start body data quakes Hacc Hw Hr Hp Ht]; subst.
  clear H Hm. destruct Hin as [Hin|Hin]; [discriminate Hin|].
  apply in_app_or in Hin as [Hin|Hin].
  { apply in_map_iff in Hin as (l & Hl & _). discriminate Hl. }
  unfold chart_events in Hin. destruct (wants_plot args); [|destruct Hin].
  apply plot_quakes_series in Hin as [-> ->].
  split; [|now exists start, body, data, quakes].
  apply adjacent_map. intros i a b Ha Hb. unfold Datetime.geb.
  now rewrite (sort_quakes_time_desc quakes i a b Ha Hb).
Qed.

End RunMore.

(** ** [sorted], once more *)

Section SortedMore.
Context {A K : Type} (key : A -> K) (lt : K -> K -> bool).

Lemma sort_ascending_fixed (l : list A) :
  Sorted (fun a b => lt (key b) (key a) = false) l ->
  sort_ascending key lt l = l.
Proof.
  intros Hsorted. induction Hsorted as [|x l Hs IH Hd]; [reflexivity|].
  change (insert key lt x (sort_ascending key lt l) = x :: l). rewrite IH.
  destruct Hd as [|y l' Hy]; [reflexivity|]. simpl. now rewrite Hy.
Qed.

Lemma sorted_fixed (l : list A) :
  Sorted (fun a b => lt (key a) (key b) = false) l ->
  sorted key lt true l = l.
Proof.
  intros Hs. unfold sorted. apply Sorted_rev in Hs.
  rewrite (sort_ascending_fixed _ Hs). apply rev_involutive.
Qed.

End SortedMore.

Lemma lex_compare_Eq (a b : list Z) :
  Datetime.lex_compare a b = Eq -> a = b.
Proof.
  revert b. induction a as [|x a IH]; intros [|y b]; simpl;
    try discriminate; [reflexivity|].
  destruct (Z.compare_spec x y) as [->| |]; try discriminate.
  intros Hc. f_equal. now apply IH.
Qed.

Lemma lex_compare_refl (a : list Z) : Datetime.lex_compare a a = Eq.
Proof. induction a as [|x a IH]; simpl; [reflexivity|]. now rewrite Z.compare_refl. Qed.

Lemma lex_compare_not_Lt_trans (a b c : list Z) :
  Datetime.lex_compare a b <> Lt -> Datetime.lex_compare b c <> Lt ->
  Datetime.lex_compare a c <> Lt.
Proof.
  revert b c. induction a as [|x a IH]; intros [|y b] [|z c]; simpl;
    try congruence.
  destruct (Z.compare_spec x y), (Z.compare_spec y z), (Z.compare_spec x z);
    try congruence; try lia.
  apply IH.
Qed.

Lemma Datetime_ltb_irrefl (a : datetime) : Datetime.ltb a a = false.
Proof. unfold Datetime.ltb, Datetime.compare. now rewrite lex_compare_refl. Qed.

Lemma Datetime_not_ltb_trans (a b c : datetime) :
  Datetime.ltb a b = false -> Datetime.ltb b c = false ->
  Datetime.ltb a c = false.
Proof.
  unfold Datetime.ltb, Datetime.compare. intros Hab Hbc.
  pose proof (lex_compare_not_Lt_trans (Datetime.fields a) (Datetime.fields b)
                (Datetime.fields c)) as H.
  destruct (Datetime.lex_compare (Datetime.fields a) (Datetime.fields b));
    try discriminate;
    destruct (Datetime.lex_compare (Datetime.fields b) (Datetime.fields c));
    try discriminate;
    destruct (Datetime.lex_compare (Datetime.fields a) (Datetime.fields c));
    try reflexivity; exfalso; apply H; congruence.
Qed.

Lemma time_eqb_fields (a b : datetime) :
  time_eqb a b = true -> Datetime.fields a = Datetime.fields b.
Proof.
  unfold time_eqb, Datetime.compare. intros H. apply lex_compare_Eq.
  now destruct (Datetime.lex_compare _ _).
Qed.

Lemma time_eqb_tied (k x y : datetime) :
  time_eqb x k = true -> time_eqb y k = true -> Datetime.ltb y x = false.
Proof.
  intros Hx Hy. apply time_eqb_fields in Hx, Hy.
  unfold Datetime.ltb, Datetime.compare. rewrite Hx, Hy.
  now rewrite lex_compare_refl.
Qed.

Lemma time_tie_eqb (x y : datetime) :
  negb (Datetime.ltb x y) && negb (Datetime.ltb y x) = time_eqb y x.
Proof.
  unfold Datetime.ltb, time_eqb, Datetime.compare.
  rewrite (lex_compare_antisym (Datetime.fields x) (Datetime.fields y)).
  now destruct (Datetime.lex_compare _ _).
Qed.

(** X19: in "time" mode records of the same time come out in the order
    they came in, and the outcome is the only arrangement of the input
    that is newest first with ties in input order. *)
Theorem sort_quakes_time_stable (quakes : list Quake) :
  ties_kept time_utc time_eqb quakes (sort_quakes quakes "time")
  /\ forall l,
       Permutation quakes l ->
       adjacent time_ge l ->
       ties_kept time_utc time_eqb quakes l ->
       l = sort_quakes quakes "time".
Proof.
  assert (Hties :
           ties_kept time_utc time_eqb quakes (sort_quakes quakes "time")).
  { intros k. apply sorted_filter. intros x y. apply time_eqb_tied. }
  split; [exact Hties|]. intros l Hl Hadj Hkept.
  apply (stable_sort_unique time_utc Datetime.ltb (fun _ => True)).
  - intros x _. apply Datetime_ltb_irrefl.
  - intros x y z _ _ _. apply Datetime_not_ltb_trans.
  - now apply List.Forall_forall.
  - rewrite <- Hl. apply sorted_Permutation.
  - apply adjacent_Sorted. intros i a b Ha Hb.
    specialize (Hadj i a b Ha Hb). unfold time_ge, Datetime.geb in Hadj.
    now destruct (Datetime.ltb _ _).
  - apply adjacent_Sorted, sort_quakes_time_desc.
  - intros a _.
    assert (Htie : forall l0,
               List.filter
                 (fun b => negb (Datetime.ltb (time_utc a) (time_utc b))
                           && negb (Datetime.ltb (time_utc b) (time_utc a)))
                 l0
               = List.filter (fun b => time_eqb (time_utc b) (time_utc a)) l0).
    { intros l0. apply List.filter_ext. intros b. apply time_tie_eqb. }
    rewrite !Htie, (Hkept (time_utc a)). symmetry. apply Hties.
Qed.

Lemma sort_quakes_in_order (quakes : list Quake) (order : string) :
  adjacent (in_order order) (sort_quakes quakes order).
Proof.
  unfold in_order, sort_quakes. destruct (String.eqb order "time").
  - exact (sort_quakes_time_desc quakes).
  - exact (sort_quakes_magnitude_desc quakes).
Qed.

Lemma sort_quakes_fixed (quakes : list Quake) (order : string) :
  adjacent (in_order order) quakes -> sort_quakes quakes order = quakes.
Proof.
  unfold in_order, sort_quakes. destruct (String.eqb order "time");
    intros H; apply sorted_fixed, adjacent_Sorted, H.
Qed.

(** X20: in "time" mode, and by magnitude when no magnitude is NaN, a
    list that is in order already, each record not below the one after it
    by the key of [order], comes back as it is. *)
Theorem sort_quakes_sorted_input (quakes : list Quake) (order : string) :
  keys_ordered order quakes ->
  adjacent (in_order order) quakes -> sort_quakes quakes order = quakes.
Proof.
  intros _. unfold in_order, sort_quakes.
  destruct (String.eqb order "time"); intros Hadj.
  - apply sorted_fixed. now apply adjacent_Sorted.
  - apply sorted_fixed. now apply adjacent_Sorted.
Qed.

(** X21: in "time" mode, and by magnitude when no magnitude is NaN,
    sorting twice by the same key is sorting once. *)
Theorem sort_quakes_idempotent (quakes : list Quake) (order : string) :
  keys_ordered order quakes ->
  sort_quakes (sort_quakes quakes order) order = sort_quakes quakes order.
Proof.
  intros _. apply sort_quakes_fixed.
  apply sort_quakes_in_order.
Qed.

(** ** The listing and the chart *)

Lemma slice_to_take {X : Type} (l : list X) (n : Z) :
  0 <= n ->
  slice_to l n = take (Z.to_nat (Z.min n (Z.of_nat (length l)))) l.
Proof.
  intros Hn. unfold slice_to. apply Z.leb_le in Hn as ->.
  destruct (Z.le_gt_cases n (Z.of_nat (length l))) as [H|H].
  - now rewrite Z.min_l.
  - rewrite Z.min_r, Nat2Z.id by lia.
    rewrite !take_ge; [reflexivity|lia..].
Qed.

(** X22: of a list that is not empty and a limit that is not negative,
    [print_results] announces the smaller of the limit and the length, and
    lists that many records: the first ones, in the order given; all of
    them when the limit is not below the length. *)
Theorem print_results_shown (quakes : list Quake) (limit : Z) :
  quakes <> [] -> 0 <= limit ->
  let n := Z.of_nat (length quakes) in
  let rows := take (Z.to_nat (Z.min limit n)) quakes in
  print_results quakes limit
  = ("Found " +:+ pretty n +:+ " earthquakes. Showing up to "
     +:+ pretty (Z.min limit n) +:+ ":")
    :: string_repeat "-" 80 :: print_rows 1 rows
  /\ Z.of_nat (length rows) = Z.min limit n
  /\ (n <= limit -> rows = quakes).
Proof.
  intros Hne Hl n rows. split; [|split].
  - destruct quakes as [|q quakes]; [now destruct Hne|].
    unfold print_results. now rewrite (slice_to_take (q :: quakes) limit Hl).
  - unfold rows. rewrite length_take. unfold n. lia.
  - intros Hn. unfold rows. rewrite Z.min_r by exact Hn. unfold n.
    rewrite Nat2Z.id. now apply take_ge.
Qed.

(** X23: a negative limit is announced as it is, and the listing then
    leaves out the last [- limit] records instead of showing none; so the
    number announced is not the number of records listed. *)
Theorem print_results_negative_limit (quakes : list Quake) (limit : Z) :
  quakes <> [] -> limit < 0 ->
  let n := Z.of_nat (length quakes) in
  let rows := take (length quakes - Z.to_nat (- limit)) quakes in
  print_results quakes limit
  = ("Found " +:+ pretty n +:+ " earthquakes. Showing up to "
     +:+ pretty limit +:+ ":")
    :: string_repeat "-" 80 :: print_rows 1 rows
  /\ Z.of_nat (length rows) = Z.max 0 (n + limit)
  /\ Z.of_nat (length rows) <> limit.
Proof.
  intros Hne Hl n rows.
  assert (Hlen : Z.of_nat (length rows) = Z.max 0 (n + limit)).
  { unfold rows, n. rewrite length_take. lia. }
  split; [|split; [exact Hlen|lia]].
  destruct quakes as [|q quakes]; [now destruct Hne|].
  unfold print_results, slice_to.
  rewrite Z.min_l by lia. apply Z.leb_gt in Hl. now rewrite Hl.
Qed.

Lemma print_rows_length (i : Z) (l : list Quake) :
  length (print_rows i l)
  = (length l + length (List.filter has_url l))%nat.
Proof.
  revert i. induction l as [|q l IH]; intros i; [reflexivity|].
  simpl. rewrite length_app, IH. unfold has_url.
  destruct (String.eqb (url q) EmptyString); simpl; lia.
Qed.

(** X24: the listing is two lines of heading, then one line for each
    record shown and one more for each of them that has a URL. *)
Theorem print_results_lines (quakes : list Quake) (limit : Z) :
  quakes <> [] ->
  length (print_results quakes limit)
  = (2 + length (slice_to quakes limit)
     + length (List.filter has_url (slice_to quakes limit)))%nat.
Proof.
  intros Hne. destruct quakes as [|q quakes]; [now destruct Hne|].
  unfold print_results. simpl length. rewrite print_rows_length. lia.
Qed.

Lemma print_rows_app (i : Z) (l1 l2 : list Quake) :
  print_rows i (l1 ++ l2)
  = print_rows i l1 ++ print_rows (i + Z.of_nat (length l1)) l2.
Proof.
  revert i. induction l1 as [|q l1 IH]; intros i.
  - simpl. now rewrite Z.add_0_r.
  - simpl print_rows. rewrite IH. simpl app. f_equal.
    rewrite <- app_assoc. do 2 f_equal. simpl length. f_equal. lia.
Qed.

(** X25: the record at place [k] of the list, counted from 0, is listed
    under the number [k + 1] when [k] is below the limit. *)
Theorem print_results_numbering (before after : list Quake) (q : Quake)
    (limit : Z) :
  Z.of_nat (length before) < limit ->
  In (rjust2 (pretty (Z.of_nat (length before) + 1)) +:+ ". " +:+ format_row q)
    (print_results (before ++ q :: after) limit).
Proof.
  intros Hl.
  assert (Hrows : exists rest,
             slice_to (before ++ q :: after) limit = before ++ q :: rest).
  { unfold slice_to.
    assert (Hpos : (0 <=? limit) = true) by (apply Z.leb_le; lia).
    rewrite Hpos.
    exists (take (Z.to_nat limit - S (length before)) after).
    rewrite take_app. rewrite take_ge by lia. f_equal.
    replace (Z.to_nat limit - length before)%nat
      with (S (Z.to_nat limit - S (length before))) by lia.
    reflexivity. }
  destruct Hrows as [rest Hrows].
  assert (Hin : In (rjust2 (pretty (Z.of_nat (length before) + 1)) +:+ ". "
                    +:+ format_row q)
                  (print_rows 1 (before ++ q :: rest))).
  { rewrite print_rows_app. apply in_or_app. right.
    rewrite (Z.add_comm 1). now left. }
  unfold print_results.
  destruct (before ++ q :: after) as [|q0 l0] eqn:E.
  { now destruct before. }
  rewrite Hrows. right. right. exact Hin.
Qed.

(** The calls of [plot_quakes] when none raises. *)
Lemma plot_quakes_display_all (quakes : list Quake) (title : string)
    (save_path : option string) (show : bool) :
  (In (Chart Show) (plot_quakes quakes title save_path show)
   <-> show = true /\ quakes <> [])
  /\ (In (Chart UseAgg) (plot_quakes quakes title save_path show)
      <-> show = false /\ quakes <> [])
  /\ (In (Chart Close) (plot_quakes quakes title save_path show)
      <-> show = false /\ quakes <> []).
Proof.
  unfold plot_quakes. destruct quakes as [|q quakes].
  { split; [|split];
      (split; [intros [Hin|[]]; discriminate Hin
              |intros [_ Hq]; now destruct Hq]). }
  assert (Hne : q :: quakes <> []) by discriminate.
  destruct show, save_path as [path|];
    try destruct (String.eqb path EmptyString);
    (split; [|split]);
    (split;
     [intros Hin; simpl in Hin;
      repeat (destruct Hin as [Hin|Hin]; try discriminate Hin);
      try (now destruct Hin); (split; [reflexivity|exact Hne])
     |intros [Hs _]; try discriminate Hs; simpl; tauto]).
Qed.

Lemma plot_quakes_saves_all (quakes : list Quake) (title : string)
    (save_path : option string) (show : bool) (path : string) (dpi : Z) :
  In (Chart (Savefig path dpi)) (plot_quakes quakes title save_path show)
  <-> quakes <> [] /\ save_path = Some path /\ path <> EmptyString
      /\ dpi = 200.
Proof.
  unfold plot_quakes. destruct quakes as [|q quakes].
  { split; [intros [Hin|[]]; discriminate Hin|].
    intros [Hq _]; now destruct Hq. }
  assert (Hne : q :: quakes <> []) by discriminate.
  destruct save_path as [path0|].
  - destruct (String.eqb_spec path0 EmptyString) as [->|Hp].
    + split.
      * intros Hin. destruct show; simpl in Hin;
          repeat (destruct Hin as [Hin|Hin]; try discriminate Hin);
          now destruct Hin.
      * intros (_ & [= <-] & Hp & _). now destruct Hp.
    + split.
      * intros Hin. destruct show; simpl in Hin;
          repeat (destruct Hin as [Hin|Hin]; try discriminate Hin);
          try (now destruct Hin); injection Hin as <- <-; auto.
      * intros (_ & [= <-] & _ & ->). destruct show; simpl; tauto.
  - split.
    + intros Hin. destruct show; simpl in Hin;
        repeat (destruct Hin as [Hin|Hin]; try discriminate Hin);
        now destruct Hin.
    + intros (_ & Hs & _). discriminate Hs.
Qed.

Lemma prefix_In {X : Type} (x : X) (done l : list X) :
  done `prefix_of` l -> In x done -> In x l.
Proof. intros [k ->] Hin. apply in_or_app. now left. Qed.

(** A prefix that holds the last element, which occurs nowhere else, is
    the whole list. *)
Lemma prefix_with_last {X : Type} (x : X) (pre done : list X) :
  done `prefix_of` (pre ++ [x]) -> ~ In x pre -> In x done ->
  done = pre ++ [x].
Proof.
  intros [k Hk]. revert done Hk.
  induction pre as [|p pre IH]; intros done Hk Hpre Hin.
  - destruct done as [|y done]; [destruct Hin|].
    simpl in Hk. injection Hk as <- Hk.
    symmetry in Hk. apply app_eq_nil in Hk as [-> _]. reflexivity.
  - destruct done as [|y done]; [destruct Hin|].
    simpl in Hk. injection Hk as <- Hk.
    destruct Hin as [<-|Hin]; [destruct Hpre; now left|].
    simpl. f_equal. apply IH; [exact Hk| |exact Hin].
    intros Hx. apply Hpre. now right.
Qed.

(** A prefix that holds an element holds the one just before it, when the
    element occurs no earlier. *)
Lemma prefix_before {X : Type} (x y : X) (pre post done : list X) :
  done `prefix_of` (pre ++ x :: y :: post) -> ~ In y pre -> In y done ->
  In x done.
Proof.
  intros [k Hk]. revert done Hk.
  induction pre as [|p pre IH]; intros done Hk Hpre Hin.
  - destruct done as [|z done]; [destruct Hin|].
    simpl in Hk. injection Hk as <- Hk. now left.
  - destruct done as [|z done]; [destruct Hin|].
    simpl in Hk. injection Hk as <- Hk.
    destruct Hin as [<-|Hin]; [destruct Hpre; now left|].
    right. apply IH; [exact Hk| |exact Hin].
    intros Hy. apply Hpre. now right.
Qed.

(** The calls of [plot_quakes] on a list that is not empty, the last one
    apart. *)
Lemma plot_quakes_last (q : Quake) (quakes : list Quake) (title : string)
    (save_path : option string) (show : bool) :
  exists pre,
    plot_quakes (q :: quakes) title save_path show
    = pre ++ [Chart (if show then Show else Close)]
    /\ ~ In (Chart Show) pre /\ ~ In (Chart Close) pre.
Proof.
  unfold plot_quakes.
  eexists. split; [rewrite !app_assoc; reflexivity|].
  split; intros Hin;
    repeat (apply in_app_or in Hin as [Hin|Hin]).
  all: try (destruct show; simpl in Hin;
            repeat (destruct Hin as [Hin|Hin]; try discriminate Hin);
            now destruct Hin).
  all: destruct save_path as [path|]; [|destruct Hin];
    destruct (String.eqb path EmptyString); [destruct Hin|];
    destruct Hin as [Hin|[Hin|[]]]; discriminate Hin.
Qed.

(** X26: when a call of [plot_quakes] raises, what has been done is a
    prefix of its calls.  In every prefix: a window is opened only when
    the function is asked to show a list that is not empty, and only
    after all the other calls; the Agg backend is selected and the figure
    closed only when it is asked not to show one, the backend before any
    other call and the closing after all of them. *)
Theorem plot_quakes_display (quakes : list Quake) (title : string)
    (save_path : option string) (show : bool) (done : list event) :
  done `prefix_of` plot_quakes quakes title save_path show ->
  (In (Chart Show) done ->
   show = true /\ quakes <> []
   /\ done = plot_quakes quakes title save_path show)
  /\ (In (Chart Close) done ->
      show = false /\ quakes <> []
      /\ done = plot_quakes quakes title save_path show)
  /\ (In (Chart UseAgg) done -> show = false /\ quakes <> [])
  /\ (show = false -> quakes <> [] -> done <> [] ->
      head done = Some (Chart UseAgg)).
Proof.
  intros Hpre.
  destruct (plot_quakes_display_all quakes title save_path show)
    as (Hshow & Hagg & Hclose).
  split; [|split; [|split]].
  - intros Hin. destruct (proj1 Hshow (prefix_In _ _ _ Hpre Hin)) as [-> Hq].
    split; [reflexivity|]. split; [exact Hq|].
    destruct quakes as [|q quakes]; [now destruct Hq|].
    destruct (plot_quakes_last q quakes title save_path true)
      as (pre & Hl & Hns & _).
    rewrite Hl in Hpre |- *. now apply prefix_with_last.
  - intros Hin. destruct (proj1 Hclose (prefix_In _ _ _ Hpre Hin)) as [-> Hq].
    split; [reflexivity|]. split; [exact Hq|].
    destruct quakes as [|q quakes]; [now destruct Hq|].
    destruct (plot_quakes_last q quakes title save_path false)
      as (pre & Hl & _ & Hnc).
    rewrite Hl in Hpre |- *. now apply prefix_with_last.
  - intros Hin. exact (proj1 Hagg (prefix_In _ _ _ Hpre Hin)).
  - intros -> Hq Hd. destruct quakes as [|q quakes]; [now destruct Hq|].
    destruct Hpre as [k Hk]. destruct done as [|e done]; [now destruct Hd|].
    unfold plot_quakes in Hk. simpl in Hk. now injection Hk as <- _.
Qed.

Lemma saved_line_inj (path path0 : string) :
  "Saved plot to: " +:+ path = "Saved plot to: " +:+ path0 -> path = path0.
Proof. cbv [String.append]. now intros [= ->]. Qed.

(** X27: in every prefix of the calls of [plot_quakes], the figure is
    saved only when the list is not empty and a path that is not the empty
    string was given, to that path and at 200 dpi, and the path is
    reported on standard output only after the call that saves to it.
    When no call raises, the figure is saved and reported in exactly
    that case. *)
Theorem plot_quakes_saves (quakes : list Quake) (title : string)
    (save_path : option string) (show : bool) (path : string) (dpi : Z)
    (done : list event) :
  done `prefix_of` plot_quakes quakes title save_path show ->
  (In (Chart (Savefig path dpi)) done ->
   quakes <> [] /\ save_path = Some path /\ path <> EmptyString
   /\ dpi = 200)
  /\ (In (Stdout ("Saved plot to: " +:+ path)) done ->
      In (Chart (Savefig path 200)) done)
  /\ (done = plot_quakes quakes title save_path show ->
      quakes <> [] -> save_path = Some path -> path <> EmptyString ->
      In (Chart (Savefig path 200)) done
      /\ In (Stdout ("Saved plot to: " +:+ path)) done).
Proof.
  intros Hpre. split; [|split].
  - intros Hin.
    exact (proj1 (plot_quakes_saves_all quakes title save_path show path dpi)
             (prefix_In _ _ _ Hpre Hin)).
  - intros Hin. pose proof (prefix_In _ _ _ Hpre Hin) as Hall.
    unfold plot_quakes in Hall, Hpre.
    destruct quakes as [|q quakes].
    { destruct Hall as [Hall|[]]. injection Hall as Hall.
      cbv [String.append] in Hall. discriminate Hall. }
    destruct save_path as [path0|].
    2:{ destruct show; simpl in Hall;
          repeat (destruct Hall as [Hall|Hall]; try discriminate Hall);
          now destruct Hall. }
    destruct (String.eqb path0 EmptyString).
    { destruct show; simpl in Hall;
        repeat (destruct Hall as [Hall|Hall]; try discriminate Hall);
        now destruct Hall. }
    assert (Hp : path0 = path).
    { destruct show; simpl in Hall;
        repeat (destruct Hall as [Hall|Hall]; try discriminate Hall);
        try (now destruct Hall);
        apply (f_equal (fun e => match e with
                                 | Stdout line => line
                                 | _ => EmptyString
                                 end)) in Hall;
        now apply saved_line_inj in Hall. }
    subst path0. rewrite app_assoc in Hpre.
    refine (prefix_before _ _ _ _ _ Hpre _ Hin).
    intros Hy. apply in_app_or in Hy as [Hy|Hy];
      destruct show; simpl in Hy;
      repeat (destruct Hy as [Hy|Hy]; try discriminate Hy);
      now destruct Hy.
  - intros -> Hq -> Hp.
    destruct quakes as [|q quakes]; [now destruct Hq|].
    unfold plot_quakes. apply String.eqb_neq in Hp. rewrite Hp.
    destruct show; simpl; tauto.
Qed.

(** ** The parameters of the request *)

Lemma string_length_app (s1 s2 : string) :
  String.length (s1 +:+ s2) = (String.length s1 + String.length s2)%nat.
Proof.
  induction s1 as [|c s1 IH]; [reflexivity|].
  change (String c s1 +:+ s2) with (String c (s1 +:+ s2)).
  simpl. now rewrite IH.
Qed.

Lemma dec_length (w : nat) (n : Z) : String.length (Datetime.dec w n) = w.
Proof.
  revert n. induction w as [|w IH]; intros n; [reflexivity|].
  simpl. rewrite string_length_app, IH. simpl. lia.
Qed.

Lemma isoformat_utc_length (dt : datetime) :
  String.length (isoformat_utc dt) = 19%nat.
Proof.
  unfold isoformat_utc, Datetime.isoformat_seconds.
  rewrite !string_length_app, !dec_length. reflexivity.
Qed.

(** X28: the timestamp of a valid time has 19 characters and reads back
    as the whole seconds of that time since the epoch; the microseconds do
    not show in it. *)
Theorem isoformat_utc_round_trip (dt : datetime) :
  Datetime.valid dt ->
  String.length (isoformat_utc dt) = 19%nat
  /\ seconds_of_iso (isoformat_utc dt) = Some (Datetime.to_seconds dt)
  /\ forall us,
       isoformat_utc dt
       = isoformat_utc
           (Datetime.mkDatetime (Datetime.year dt) (Datetime.month dt)
              (Datetime.day dt) (Datetime.hour dt) (Datetime.minute dt)
              (Datetime.second dt) us).
Proof.
  intros Hv. split; [apply isoformat_utc_length|].
  split; [now apply seconds_of_isoformat_valid|]. reflexivity.
Qed.

Lemma param_build_params {B : Builtins} (s e : datetime) (m : float) (l : Z) :
  param (build_params s e m l) "starttime" = Some (isoformat_utc s)
  /\ param (build_params s e m l) "endtime" = Some (isoformat_utc e)
  /\ param (build_params s e m l) "limit" = Some (pretty l).
Proof. now split. Qed.

(** X29: the parameters of a request determine its window to the second
    and its limit: two requests with the same parameters have start times
    in the same second, end times in the same second, and the same
    limit. *)
Theorem build_params_injective {B : Builtins} (s1 e1 s2 e2 : datetime)
    (m1 m2 : float) (l1 l2 : Z) :
  Datetime.valid s1 -> Datetime.valid e1 ->
  Datetime.valid s2 -> Datetime.valid e2 ->
  build_params s1 e1 m1 l1 = build_params s2 e2 m2 l2 ->
  Datetime.to_seconds s1 = Datetime.to_seconds s2
  /\ Datetime.to_seconds e1 = Datetime.to_seconds e2
  /\ l1 = l2.
Proof.
  intros Hs1 He1 Hs2 He2 Hp.
  destruct (param_build_params s1 e1 m1 l1) as (Ps1 & Pe1 & Pl1).
  destruct (param_build_params s2 e2 m2 l2) as (Ps2 & Pe2 & Pl2).
  rewrite Hp in Ps1, Pe1, Pl1.
  rewrite Ps2 in Ps1. rewrite Pe2 in Pe1. rewrite Pl2 in Pl1.
  assert (Es : isoformat_utc s2 = isoformat_utc s1) by congruence.
  assert (Ee : isoformat_utc e2 = isoformat_utc e1) by congruence.
  assert (El : pretty l2 = pretty l1) by congruence.
  pose proof (seconds_of_isoformat_valid s1 Hs1) as R1.
  pose proof (seconds_of_isoformat_valid s2 Hs2) as R2.
  pose proof (seconds_of_isoformat_valid e1 He1) as R3.
  pose proof (seconds_of_isoformat_valid e2 He2) as R4.
  rewrite Es, R1 in R2. rewrite Ee, R3 in R4.
  split; [congruence|]. split; [congruence|].
  symmetry. now apply (inj pretty).
Qed.

(** ** The properties at work *)

Lemma parse_geojson_subsequence_witness :
  (length [example_quake] <= length [JNull; example_feature])%nat
  /\ exists kept,
       sublist kept [JNull; example_feature]
       /\ Forall2
            (fun f q => parse_feature (B := plain_builtins) f = Ok (Some q))
            kept [example_quake].
Proof.
  apply (parse_geojson_subsequence (B := plain_builtins)
           [("features", JList [JNull; example_feature])]);
    reflexivity.
Defined.

Lemma parse_geojson_not_object_feature_witness :
  parse_feature (B := plain_builtins) JNull = Ok None
  /\ forall l1 l2,
       parse_geojson (B := plain_builtins)
         (feature_collection (l1 ++ JNull :: l2))
       = parse_geojson (B := plain_builtins) (feature_collection (l1 ++ l2)).
Proof.
  apply (parse_geojson_not_object_feature (B := plain_builtins) JNull).
  discriminate.
Defined.

Lemma parse_feature_defaults_witness :
  parse_feature (B := plain_builtins) (JDict page_feature)
  = Ok (Some page_quake).
Proof.
  exact (parse_feature_defaults (B := plain_builtins) page_feature
           page_properties [("coordinates", JList page_coordinates)]
           page_coordinates (decimal 48 1) (decimal (-1224) 1) (decimal 378 1)
           (decimal 105 1) (Float.true_div 1700000000000 1000) 1700000000000
           (Datetime.mkDatetime 2023 11 14 22 13 20 0) EmptyString
           "https://earthquake.usgs.gov/earthquakes/eventpage/x"
           eq_refl eq_refl eq_refl eq_refl eq_refl eq_refl eq_refl eq_refl
           eq_refl eq_refl eq_refl eq_refl).
Defined.

Lemma parse_geojson_properties_not_object_witness :
  parse_geojson (B := plain_builtins)
    (feature_collection
       ([example_feature] ++ null_properties_feature :: [example_feature]))
  = Raise AttributeError.
Proof.
  apply (parse_geojson_properties_not_object (B := plain_builtins)
           [("properties", JNull);
            ("geometry", JDict [("coordinates", JList [])])]
           [("coordinates", JList [])] JNull (JList []));
    try reflexivity; try discriminate.
  constructor; [now exists (Some example_quake)|constructor].
Defined.

Lemma parse_geojson_infinite_time_witness :
  parse_geojson (B := plain_builtins)
    (feature_collection
       ([example_feature] ++ infinite_time_feature :: [example_feature]))
  = Raise OverflowError.
Proof.
  apply (parse_geojson_infinite_time (B := plain_builtins)
           [("properties",
             JDict [("mag", JFloat (decimal 48 1));
                    ("time", JFloat (S754_infinity false))]);
            ("geometry",
             JDict [("coordinates",
                     JList [JFloat (decimal (-1224) 1);
                            JFloat (decimal 378 1);
                            JFloat (decimal 105 1)])])]
           [("mag", JFloat (decimal 48 1));
            ("time", JFloat (S754_infinity false))]
           [("coordinates",
             JList [JFloat (decimal (-1224) 1);
                    JFloat (decimal 378 1);
                    JFloat (decimal 105 1)])]
           [JFloat (decimal (-1224) 1); JFloat (decimal 378 1);
            JFloat (decimal 105 1)]
           (JFloat (decimal 48 1)) false);
    try reflexivity; try discriminate; try (simpl; lia).
  constructor; [now exists (Some example_quake)|constructor].
Defined.

Lemma parse_geojson_never_caught_witness :
  SCHEMA_ERROR <> KeyError /\ SCHEMA_ERROR <> TypeError
  /\ SCHEMA_ERROR <> ValueError.
Proof.
  exact (parse_geojson_never_caught (B := plain_builtins) (JDict odd_document)
           SCHEMA_ERROR eq_refl).
Defined.

Lemma parse_geojson_not_object_witness :
  parse_geojson (B := plain_builtins) (JList []) = Raise AttributeError
  /\ forall args start body,
       accepted args = true ->
       window_start example_now args = Ok start ->
       list_server USGS_QUERY_ENDPOINT
         (build_params (B := plain_builtins) start example_now (min_mag args)
            (limit args))
         DEFAULT_TIMEOUT_SECONDS
       = Response (mkResponse 200 body (Some (JList []))) ->
       main (B := plain_builtins) example_now list_server args
       = ([HttpGet USGS_QUERY_ENDPOINT
             (build_params (B := plain_builtins) start example_now
                (min_mag args) (limit args))
             DEFAULT_TIMEOUT_SECONDS],
          Raise AttributeError).
Proof.
  apply (parse_geojson_not_object (B := plain_builtins) example_now list_server
           (JList [])).
  discriminate.
Defined.

Lemma fetch_quakes_network_error_witness :
  main (B := plain_builtins) example_now offline default_args
  = ([HttpGet USGS_QUERY_ENDPOINT
        (build_params (B := plain_builtins) example_start example_now
           (min_mag default_args) (limit default_args))
        DEFAULT_TIMEOUT_SECONDS],
     Raise (NETWORK_ERROR "connection refused")).
Proof.
  apply (proj2
           (fetch_quakes_network_error (B := plain_builtins) example_now
              offline
              (build_params (B := plain_builtins) example_start example_now
                 (min_mag default_args) (limit default_args))
              "connection refused" eq_refl)
           default_args example_start);
    reflexivity.
Defined.

Lemma fetch_quakes_invalid_json_witness :
  main (B := plain_builtins) example_now html_server default_args
  = ([HttpGet USGS_QUERY_ENDPOINT
        (build_params (B := plain_builtins) example_start example_now
           (min_mag default_args) (limit default_args))
        DEFAULT_TIMEOUT_SECONDS],
     Raise JSON_ERROR).
Proof.
  apply (proj2
           (fetch_quakes_invalid_json (B := plain_builtins) example_now
              html_server
              (build_params (B := plain_builtins) example_start example_now
                 (min_mag default_args) (limit default_args))
              "<html></html>" eq_refl)
           default_args example_start);
    reflexivity.
Defined.

Lemma main_exit_status_witness :
  (2 = 0 \/ 2 = 2)
  /\ (2 = 2 <-> accepted zero_limit_args = false)
  /\ (2 = 2 ->
      [Stderr "--limit must be > 0"]
      = [Stderr (if Float.leb (hours zero_limit_args) Float.zero
                 then "--hours must be > 0" else "--limit must be > 0")]).
Proof.
  exact (main_exit_status (B := plain_builtins) example_now offline
           zero_limit_args [Stderr "--limit must be > 0"] 2 eq_refl).
Defined.

Lemma main_hours_not_finite_witness :
  (hours nan_hours_args = S754_nan ->
   main (B := plain_builtins) example_now offline nan_hours_args
   = ([], Raise ValueError))
  /\ (hours nan_hours_args = S754_infinity false ->
      main (B := plain_builtins) example_now offline nan_hours_args
      = ([], Raise OverflowError)).
Proof.
  apply (main_hours_not_finite (B := plain_builtins) example_now offline
           nan_hours_args).
  reflexivity.
Defined.

Lemma main_nothing_found_witness :
  main (B := plain_builtins) example_now empty_server plot_args
  = ([HttpGet USGS_QUERY_ENDPOINT
        (build_params (B := plain_builtins) example_start example_now
           (min_mag plot_args) (limit plot_args))
        DEFAULT_TIMEOUT_SECONDS;
      Stdout "No earthquakes matched your filters.";
      Stdout "No data to plot."],
     Ok 0).
Proof.
  exact (main_nothing_found (B := plain_builtins) example_now empty_server
           plot_args example_start "" (feature_collection [])
           eq_refl eq_refl eq_refl eq_refl).
Defined.

Lemma main_charts_by_time_witness :
  adjacent (fun a b => Datetime.geb a b = true) [time_utc example_quake]
  /\ exists start body data quakes,
       window_start example_now plot_args = Ok start
       /\ one_server USGS_QUERY_ENDPOINT
            (build_params (B := plain_builtins) start example_now
               (min_mag plot_args) (limit plot_args))
            DEFAULT_TIMEOUT_SECONDS
          = Response (mkResponse 200 body (Some data))
       /\ parse_geojson (B := plain_builtins) data = Ok quakes
       /\ [time_utc example_quake] = map time_utc (sort_quakes quakes "time")
       /\ [magnitude example_quake]
          = map magnitude (sort_quakes quakes "time").
Proof.
  apply (main_charts_by_time (B := plain_builtins) example_now one_server
           plot_args
           (fst (main (B := plain_builtins) example_now one_server plot_args))).
  - reflexivity.
  - vm_compute. do 6 right. left. reflexivity.
Defined.

Lemma sort_quakes_sorted_input_witness :
  sort_quakes [quake_of_magnitude (decimal 48 1);
               quake_of_magnitude (decimal 10 1)] "magnitude"
  = [quake_of_magnitude (decimal 48 1); quake_of_magnitude (decimal 10 1)].
Proof.
  apply (sort_quakes_sorted_input
           [quake_of_magnitude (decimal 48 1);
            quake_of_magnitude (decimal 10 1)] "magnitude").
  - right. repeat constructor.
  - intros [|[|i]] a b Ha Hb; try discriminate Hb.
    injection Ha as <-. injection Hb as <-. reflexivity.
Defined.

Lemma sort_quakes_idempotent_witness :
  sort_quakes
    (sort_quakes [quake_of_magnitude (decimal 10 1);
                  quake_of_magnitude (decimal 48 1)] "magnitude")
    "magnitude"
  = sort_quakes [quake_of_magnitude (decimal 10 1);
                 quake_of_magnitude (decimal 48 1)] "magnitude".
Proof.
  apply (sort_quakes_idempotent
           [quake_of_magnitude (decimal 10 1);
            quake_of_magnitude (decimal 48 1)] "magnitude").
  right. repeat constructor.
Defined.

Lemma plot_quakes_display_witness :
  (In (Chart Show) [Chart UseAgg; Chart Figure] ->
   false = true /\ [example_quake] <> []
   /\ [Chart UseAgg; Chart Figure]
      = plot_quakes [example_quake] "Earthquakes" None false)
  /\ (In (Chart Close) [Chart UseAgg; Chart Figure] ->
      false = false /\ [example_quake] <> []
      /\ [Chart UseAgg; Chart Figure]
         = plot_quakes [example_quake] "Earthquakes" None false)
  /\ (In (Chart UseAgg) [Chart UseAgg; Chart Figure] ->
      false = false /\ [example_quake] <> [])
  /\ (false = false -> [example_quake] <> [] ->
      [Chart UseAgg; Chart Figure] <> [] ->
      head [Chart UseAgg; Chart Figure] = Some (Chart UseAgg)).
Proof.
  apply (plot_quakes_display [example_quake] "Earthquakes" None false
           [Chart UseAgg; Chart Figure]).
  eexists. reflexivity.
Defined.

Lemma plot_quakes_saves_witness :
  let done :=
    plot_quakes [example_quake] "Earthquakes" (Some "quakes.png") false in
  (In (Chart (Savefig "quakes.png" 200)) done ->
   [example_quake] <> [] /\ Some "quakes.png" = Some "quakes.png"
   /\ "quakes.png" <> EmptyString /\ 200 = 200)
  /\ (In (Stdout ("Saved plot to: " +:+ "quakes.png")) done ->
      In (Chart (Savefig "quakes.png" 200)) done)
  /\ (done
      = plot_quakes [example_quake] "Earthquakes" (Some "quakes.png") false ->
      [example_quake] <> [] -> Some "quakes.png" = Some "quakes.png" ->
      "quakes.png" <> EmptyString ->
      In (Chart (Savefig "quakes.png" 200)) done
      /\ In (Stdout ("Saved plot to: " +:+ "quakes.png")) done).
Proof.
  apply (plot_quakes_saves [example_quake] "Earthquakes" (Some "quakes.png")
           false "quakes.png" 200
           (plot_quakes [example_quake] "Earthquakes" (Some "quakes.png")
              false)).
  exists []. symmetry. apply app_nil_r.
Defined.

Lemma print_results_shown_witness :
  print_results [example_quake; example_quake; example_quake] 2
  = "Found 3 earthquakes. Showing up to 2:"
    :: string_repeat "-" 80
    :: print_rows 1 [example_quake; example_quake].
Proof.
  apply (print_results_shown [example_quake; example_quake; example_quake] 2);
    [discriminate|lia].
Defined.

Lemma print_results_negative_limit_witness :
  print_results [example_quake; example_quake; example_quake] (-1)
  = "Found 3 earthquakes. Showing up to -1:"
    :: string_repeat "-" 80
    :: print_rows 1 [example_quake; example_quake].
Proof.
  apply (print_results_negative_limit
           [example_quake; example_quake; example_quake] (-1));
    [discriminate|lia].
Defined.

Lemma print_results_lines_witness :
  length (print_results [page_quake; example_quake] 20) = 5%nat.
Proof.
  apply (print_results_lines [page_quake; example_quake] 20). discriminate.
Defined.

Lemma print_results_numbering_witness :
  In (rjust2 (pretty 2) +:+ ". " +:+ format_row page_quake)
    (print_results ([example_quake] ++ page_quake :: [example_quake]) 20).
Proof.
  apply (print_results_numbering [example_quake] [example_quake] page_quake 20).
  reflexivity.
Defined.

Lemma isoformat_utc_round_trip_witness :
  String.length (isoformat_utc example_now) = 19%nat
  /\ seconds_of_iso (isoformat_utc example_now)
     = Some (Datetime.to_seconds example_now)
  /\ forall us,
       isoformat_utc example_now
       = isoformat_utc (Datetime.mkDatetime 2026 11 4 12 0 0 us).
Proof.
  apply (isoformat_utc_round_trip example_now). reflexivity.
Defined.

Lemma build_params_injective_witness :
  Datetime.to_seconds example_start = Datetime.to_seconds example_start
  /\ Datetime.to_seconds example_now = Datetime.to_seconds example_now
  /\ 20 = 20.
Proof.
  apply (build_params_injective (B := plain_builtins) example_start example_now
           example_start example_now (decimal 25 1) (decimal 25 1) 20 20);
    reflexivity.
Defined.
